(** * FastAPI-Tutorial: authentication, ownership and votes

    A shallow embedding of the request handlers of the application under
    [app/] (token service [app/oauth2.py], credential hasher
    [app/utils.py], post handlers [app/routers/posts.py], vote handler
    [app/routers/votes.py]) together with the tables of [app/models.py]
    and the request schema of [app/schema.py].

    Conventions of the embedding:
    - Python [int] is [Z]; [str] is [string]; a [dict] with string keys is
      a [gmap string _].
    - A raised exception is the [Raise] case of [result]; a handler that
      touches the database returns its result paired with the session
      state after the call.
    - The clock is an explicit argument: an [instant] is a number of
      microseconds since the epoch (the resolution of [datetime]).
    - Tables keep their rows in scan order ([list]); the [votes] table,
      whose primary key covers every column, is a finite set of rows. *)

From stdpp Require Import gmap strings list pretty.
From Stdlib Require Import ZArith Lia.

Open Scope Z_scope.

(* ===================================================================== *)
(** ** Exceptions and results                                             *)
(* ===================================================================== *)

(** The subclasses of [jwt.exceptions.InvalidTokenError] that decoding
    can raise. *)
Inductive jwt_error :=
| DecodeError
| InvalidAlgorithmError
| InvalidSignatureError
| ExpiredSignatureError.

Inductive exn :=
| HTTPException (status_code : Z) (detail : string)
                (headers : option (list (string * string)))
| InvalidTokenError (e : jwt_error)
| TypeError
| ValidationError
| RequestValidationError
| IntegrityError
| UnknownHashError.

Inductive result (A : Type) :=
| Return (a : A)
| Raise (e : exn).
Arguments Return {A} a.
Arguments Raise {A} e.

Definition HTTP_204_NO_CONTENT : Z := 204.
Definition HTTP_400_BAD_REQUEST : Z := 400.
Definition HTTP_401_UNAUTHORIZED : Z := 401.
Definition HTTP_403_FORBIDDEN : Z := 403.
Definition HTTP_404_NOT_FOUND : Z := 404.
Definition HTTP_409_CONFLICT : Z := 409.
Definition HTTP_422_UNPROCESSABLE_ENTITY : Z := 422.
Definition HTTP_500_INTERNAL_SERVER_ERROR : Z := 500.

(** The status code the framework answers with when a handler (or the
    validation of its arguments) raises: an [HTTPException] carries its
    own code, a request that does not validate against the handler's
    schema is answered 422, anything else is an internal error. *)
Definition response_status (e : exn) : Z :=
  match e with
  | HTTPException status_code _ _ => status_code
  | RequestValidationError => HTTP_422_UNPROCESSABLE_ENTITY
  | _ => HTTP_500_INTERNAL_SERVER_ERROR
  end.

(** The value a call returned, if it returned. *)
Definition returned {A} (r : result A) : option A :=
  match r with
  | Return a => Some a
  | Raise _ => None
  end.

(* ===================================================================== *)
(** ** app/models.py: tables                                              *)
(* ===================================================================== *)

Record User := {
  User_id : Z;
  User_email : string;
  User_password : string;
  User_created_at : Z
}.

Record Post := {
  Post_id : Z;
  Post_owner_id : Z;
  Post_title : string;
  Post_content : string;
  Post_published : bool;
  Post_created_at : Z
}.

(** A vote row is its composite primary key [(post_id, owner_id)]. *)
Record Vote := {
  Vote_post_id : Z;
  Vote_owner_id : Z
}.

#[global] Instance Vote_eq_dec : EqDecision Vote.
Proof. solve_decision. Defined.

#[global] Instance Vote_countable : Countable Vote :=
  inj_countable'
    (λ v, (Vote_post_id v, Vote_owner_id v))
    (λ k, {| Vote_post_id := k.1; Vote_owner_id := k.2 |})
    (λ v, match v with Build_Vote _ _ => eq_refl end).

(** The state a [Session] reads and commits to. *)
Record Session := {
  users : list User;
  posts : list Post;
  votes : gset Vote
}.

(** [query.first()]: the first row of a result, or [None]. *)
Definition first {A} (rows : list A) : option A := head rows.

(** [db.query(User).filter(User.id == id)] and
    [db.query(Post).filter(Post.id == id)]. *)
Definition users_by_id (db : Session) (id : Z) : list User :=
  filter (λ u, User_id u = id) (users db).

Definition posts_by_id (db : Session) (id : Z) : list Post :=
  filter (λ p, Post_id p = id) (posts db).

(** [db.delete(post); db.commit()]: the row goes, and with it the votes
    that reference it ([ForeignKey("posts.id", ondelete="CASCADE")]). *)
Definition delete_post_row (post : Post) (db : Session) : Session :=
  {| users := users db;
     posts := filter (λ p, Post_id p ≠ Post_id post) (posts db);
     votes := filter (λ v, Vote_post_id v ≠ Post_id post) (votes db) |}.

(** [setattr(db_post, key, value)] for the keys of [PostCreate], then
    [db.commit()]. *)
Definition set_post_fields (title content : string) (published : bool)
    (p : Post) : Post :=
  {| Post_id := Post_id p;
     Post_owner_id := Post_owner_id p;
     Post_title := title;
     Post_content := content;
     Post_published := published;
     Post_created_at := Post_created_at p |}.

Definition update_post_row (post : Post) (title content : string)
    (published : bool) (db : Session) : Session :=
  {| users := users db;
     posts := (λ p, if decide (Post_id p = Post_id post)
                    then set_post_fields title content published p
                    else p) <$> posts db;
     votes := votes db |}.

(** [db.add(new_vote); db.commit()]: the insert is refused with an
    [IntegrityError] when the primary key is taken or when one of the two
    foreign keys ([posts.id], [users.id]) has no target row. *)
Definition insert_vote (v : Vote) (db : Session) : result Session :=
  if decide (v ∈ votes db) then Raise IntegrityError
  else if decide (posts_by_id db (Vote_post_id v) = []) then Raise IntegrityError
  else if decide (users_by_id db (Vote_owner_id v) = []) then Raise IntegrityError
  else Return {| users := users db;
                 posts := posts db;
                 votes := votes db ∪ {[ v ]} |}.

(** [vote_query.delete(synchronize_session=False); db.commit()]. *)
Definition delete_vote (v : Vote) (db : Session) : Session :=
  {| users := users db;
     posts := posts db;
     votes := votes db ∖ {[ v ]} |}.

(* ===================================================================== *)
(** ** app/schema.py                                                      *)
(* ===================================================================== *)

Record PostCreate := {
  PostCreate_title : string;
  PostCreate_content : string;
  PostCreate_published : bool
}.

Record PostJoin := {
  PostJoin_post : Post;
  PostJoin_votes : Z
}.

Record VoteSchema := {
  post_id : Z;
  dir : Z
}.

Record TokenData := {
  username : option Z
}.

(** Validation of a request body against [VoteSchema]: [dir] is declared
    [Literal[0, 1]], so any other integer is refused before the handler
    is called. *)
Definition VoteSchema_validate (body_post_id body_dir : Z) : result VoteSchema :=
  if decide (body_dir = 0 ∨ body_dir = 1)
  then Return {| post_id := body_post_id; dir := body_dir |}
  else Raise RequestValidationError.

(* ===================================================================== *)
(** ** app/oauth2.py: token service and auth guard                        *)
(* ===================================================================== *)

(** The JWT library the module calls ([jwt.encode], [jwt.decode]) is not
    part of the repository. It is modelled here as far as the handlers
    depend on it: a token is signed over its header algorithm and claims
    with a keyed signature that is left abstract, and decoding checks, in
    this order, the shape of the token, the algorithm against the allowed
    list, the signature, and the [exp] claim against the clock. The
    library's checks of the other registered claims ([nbf], [iat],
    [aud]), which the application never writes, are not modelled: they
    can only refuse more tokens. *)

(** The clock: microseconds since the epoch. *)
Definition instant := Z.

(** Scalar JSON values, as they appear in a token's claims. *)
Inductive json :=
| JNull
| JBool (b : bool)
| JInt (n : Z)
| JStr (s : string).

#[global] Instance json_eq_dec : EqDecision json.
Proof. solve_decision. Defined.

(** A bearer token as the JWT library sees the string: either it does not
    split into a well-formed header, claims object and signature, or it
    does, and then it carries the header's [alg], the claims and the
    signature. *)
Inductive token :=
| Garbage (s : string)
| Compact (alg : string) (payload : gmap string json) (signature : string).

(** What Python's [int(v)] does: a value, a [ValueError] or a
    [TypeError]. *)
Inductive int_outcome :=
| IntOk (n : Z)
| IntValueError
| IntTypeError.

(** The configuration read from the environment at import time. *)
Class Settings := {
  SECRET_KEY : string;
  ALGORITHM : string;
  ACCESS_TOKEN_EXPIRE_MINUTES : Z
}.

(** What the embedding takes from the libraries without looking inside:
    the keyed signature of a header and claims under an algorithm, and the
    conversions of a claim that is not a JSON integer ([int(v)] in the JWT
    library, the [int | None] field of [TokenData]). *)
Class Runtime := {
  sign : string → string → gmap string json → string;
  int_of_other : json → int_outcome;
  username_of_other : json → option Z
}.

Definition py_int `{Runtime} (v : json) : int_outcome :=
  match v with
  | JInt n => IntOk n
  | _ => int_of_other v
  end.

(** [dict.get(key)]: the value, or [None] (JSON [null]) when the key is
    absent. *)
Definition dict_get (d : gmap string json) (key : string) : json :=
  default JNull (d !! key).

(** [datetime + timedelta(minutes=m)]. *)
Definition timedelta_minutes (m : Z) : Z := m * 60 * 1000000.

(** The JWT library writes a [datetime] claim as whole seconds since the
    epoch ([timegm] of the UTC time tuple: the microseconds are dropped). *)
Definition timegm (t : instant) : Z := t `div` 1000000.

(** [jwt.encode(payload, key, algorithm)]. *)
Definition jwt_encode `{Runtime} (payload : gmap string json)
    (key algorithm : string) : token :=
  Compact algorithm payload (sign algorithm key payload).

(** [jwt.decode(token, key, algorithms)] at clock reading [now]: the
    token must parse, its algorithm must be an allowed one, the signature
    must be the one the key gives, and an [exp] claim, when present, must
    lie strictly after [now]. *)
Definition jwt_decode `{Runtime} (t : token) (key : string)
    (algorithms : list string) (now : instant) : result (gmap string json) :=
  match t with
  | Garbage _ => Raise (InvalidTokenError DecodeError)
  | Compact alg payload signature =>
      if decide (alg ∈ algorithms) then
        if decide (sign alg key payload = signature) then
          match payload !! "exp" with
          | None => Return payload
          | Some v =>
              match py_int v with
              | IntOk exp =>
                  if decide (exp * 1000000 ≤ now)
                  then Raise (InvalidTokenError ExpiredSignatureError)
                  else Return payload
              | IntValueError => Raise (InvalidTokenError DecodeError)
              | IntTypeError => Raise TypeError
              end
          end
        else Raise (InvalidTokenError InvalidSignatureError)
      else Raise (InvalidTokenError InvalidAlgorithmError)
  end.

(** [TokenData(username=user_id)] for a [user_id] that is not [None]. *)
Definition TokenData_of `{Runtime} (user_id : json) : result TokenData :=
  match user_id with
  | JInt n => Return {| username := Some n |}
  | JNull => Return {| username := None |}
  | v => match username_of_other v with
         | Some n => Return {| username := Some n |}
         | None => Raise ValidationError
         end
  end.

(** [expire] is a [datetime]; it enters the claims as the whole second
    the JWT library encodes it to. *)
Definition create_access_token `{Settings, Runtime}
    (data : gmap string json) (now : instant) : token :=
  let to_encode := data in
  let expire := now + timedelta_minutes ACCESS_TOKEN_EXPIRE_MINUTES in
  let to_encode := <["exp" := JInt (timegm expire)]> to_encode in
  let encoded_jwt := jwt_encode to_encode SECRET_KEY ALGORITHM in
  encoded_jwt.

Definition verify_access_token `{Settings, Runtime}
    (t : token) (credentials_exception : exn) (now : instant)
    : result TokenData :=
  match jwt_decode t SECRET_KEY [ALGORITHM] now with
  | Return payload =>
      let user_id := dict_get payload "user_id" in
      if decide (user_id = JNull) then Raise credentials_exception
      else TokenData_of user_id
  | Raise (InvalidTokenError _) => Raise credentials_exception
  | Raise e => Raise e
  end.

Definition credentials_exception : exn :=
  HTTPException HTTP_401_UNAUTHORIZED "Could not validate credentials"
    (Some [("WWW-Authenticate", "Bearer")]).

(** [User.id == token_data.username]: no row has a null id. *)
Definition users_by_username (db : Session) (name : option Z) : list User :=
  match name with
  | Some id => users_by_id db id
  | None => []
  end.

Definition get_current_active_user `{Settings, Runtime}
    (t : token) (db : Session) (now : instant) : result User :=
  match verify_access_token t credentials_exception now with
  | Raise e => Raise e
  | Return token_data =>
      match first (users_by_username db (username token_data)) with
      | None => Raise credentials_exception
      | Some user => Return user
      end
  end.


(** The token [login] hands out: [create_access_token(data={"user_id": user.id})]. *)
Definition issue `{Settings, Runtime} (user_id : Z) (now : instant) : token :=
  create_access_token {[ "user_id" := JInt user_id ]} now.

(* ===================================================================== *)
(** ** app/utils.py: credential hasher                                    *)
(* ===================================================================== *)

(** [PasswordHash.recommended()] comes from the password hashing library,
    which is not part of the repository either: its dispatch over hashers
    is modelled, the Argon2 primitive underneath is left abstract. *)

(** What [argon2.PasswordHasher.verify(hash, password)] can do: return
    [True], or raise one of its three verification exceptions. *)
Inductive argon2_outcome :=
| Argon2Verified
| VerifyMismatchError
| VerificationError
| InvalidHashError.

(** The Argon2 hasher's primitives, taken as given: which strings it
    recognises as encoded Argon2 hashes, hashing under a salt, and
    verification of an encoded hash. *)
Class Argon2 := {
  argon2_identify : string → bool;
  argon2_hash : string → string → string;
  argon2_verify : string → string → argon2_outcome
}.

(** The hasher interface of the password library. *)
Record HasherProtocol := {
  identify : string → bool;
  hasher_hash : string → string → string;
  hasher_verify : string → string → bool
}.

(** The Argon2 hasher: it claims the strings it recognises as encoded
    Argon2 hashes, and turns a failed verification into [False]. *)
Definition Argon2Hasher `{Argon2} : HasherProtocol :=
  {| identify := λ hash, argon2_identify hash;
     hasher_hash := λ password salt, argon2_hash password salt;
     hasher_verify := λ password hash,
       match argon2_verify hash password with
       | Argon2Verified => true
       | VerifyMismatchError | VerificationError | InvalidHashError => false
       end |}.

(** [PasswordHash.verify]: the first hasher that identifies the hash
    verifies it; a hash that no hasher identifies is an error. *)
Definition PasswordHash_verify (hashers : list HasherProtocol)
    (password hash : string) : result bool :=
  match find (λ h, identify h hash) hashers with
  | Some hasher => Return (hasher_verify hasher password hash)
  | None => Raise UnknownHashError
  end.

(** [PasswordHash.hash]: the first hasher hashes, under a fresh salt
    (here an argument). *)
Definition PasswordHash_hash (hashers : list HasherProtocol)
    (password salt : string) : option string :=
  (λ hasher, hasher_hash hasher password salt) <$> head hashers.

(** [PasswordHash.recommended()]. *)
Definition password_hash `{Argon2} : list HasherProtocol := [Argon2Hasher].

Definition hash_password `{Argon2} (password salt : string) : option string :=
  PasswordHash_hash password_hash password salt.

Definition verify_password `{Argon2} (plain_password hashed_password : string)
    : result bool :=
  PasswordHash_verify password_hash plain_password hashed_password.

(* ===================================================================== *)
(** ** app/routers/auth.py                                                *)
(* ===================================================================== *)

(** The [Token] of [app/schema.py], returned after a successful login. *)
Record Token := {
  access_token : token;
  token_type : string
}.

Definition invalid_login : exn :=
  HTTPException HTTP_401_UNAUTHORIZED "Invalid email or password"
    (Some [("WWW-Authenticate", "Bearer")]).

(** [user_credentials.username] carries the email. *)
Definition login `{Settings, Runtime, Argon2}
    (form_username form_password : string) (db : Session) (now : instant)
    : result Token :=
  let user := first (filter (λ u, User_email u = form_username) (users db)) in
  match user with
  | None => Raise invalid_login
  | Some user =>
      match verify_password form_password (User_password user) with
      | Raise e => Raise e
      | Return false => Raise invalid_login
      | Return true =>
          let access_token :=
            create_access_token {[ "user_id" := JInt (User_id user) ]} now in
          Return {| access_token := access_token; token_type := "bearer" |}
      end
  end.

(* ===================================================================== *)
(** ** app/routers/posts.py                                               *)
(* ===================================================================== *)

(** [db.query(Post, func.count(Vote.post_id)).join(Vote, Vote.post_id ==
    Post.id, isouter=True).group_by(Post.id)]: every post, paired with
    the number of votes that reference it. *)
Definition posts_with_votes (db : Session) : list (Post * Z) :=
  (λ p, (p, Z.of_nat (size (filter (λ v, Vote_post_id v = Post_id p) (votes db)))))
    <$> posts db.

Definition post_not_found (id : Z) : exn :=
  HTTPException HTTP_404_NOT_FOUND
    ("post with id " +:+ pretty id +:+ " not found") None.

Definition get_post (id : Z) (db : Session) : result PostJoin :=
  let post := first (posts_with_votes db) in
  match post with
  | None => Raise (post_not_found id)
  | Some (post_data, votes_count) =>
      Return {| PostJoin_post := post_data; PostJoin_votes := votes_count |}
  end.

Definition delete_post (id : Z) (db : Session) (current_user : User)
    : result unit * Session :=
  let post := first (posts_by_id db id) in
  match post with
  | None => (Raise (post_not_found id), db)
  | Some post =>
      if decide (Post_owner_id post ≠ User_id current_user) then
        (Raise (HTTPException HTTP_403_FORBIDDEN
                  "Not authorized to delete this post" None), db)
      else (Return (), delete_post_row post db)
  end.

Definition update_post (id : Z) (post : PostCreate) (db : Session)
    (current_user : User) : result Post * Session :=
  let db_post := first (posts_by_id db id) in
  match db_post with
  | None => (Raise (post_not_found id), db)
  | Some db_post =>
      if decide (Post_owner_id db_post ≠ User_id current_user) then
        (Raise (HTTPException HTTP_403_FORBIDDEN
                  "Not authorized to update this post" None), db)
      else
        let title := PostCreate_title post in
        let content := PostCreate_content post in
        let published := PostCreate_published post in
        (Return (set_post_fields title content published db_post),
         update_post_row db_post title content published db)
  end.

(* ===================================================================== *)
(** ** app/routers/votes.py                                               *)
(* ===================================================================== *)

(** The handler answers with the created [Vote] or with a bare
    [Response]. *)
Inductive vote_reply :=
| ReplyVote (v : Vote)
| ReplyResponse (status_code : Z).

(** [db.query(Vote).filter(Vote.post_id == ..., Vote.owner_id == ...).first()]. *)
Definition find_vote (db : Session) (post owner : Z) : option Vote :=
  let key := {| Vote_post_id := post; Vote_owner_id := owner |} in
  if decide (key ∈ votes db) then Some key else None.

Definition vote (vote : VoteSchema) (db : Session) (current_user : User)
    : result vote_reply * Session :=
  let existing_vote := find_vote db (post_id vote) (User_id current_user) in
  if decide (dir vote = 1) then
    match existing_vote with
    | Some _ =>
        (Raise (HTTPException HTTP_409_CONFLICT
                  ("user " +:+ pretty (User_id current_user)
                   +:+ " has already voted on post " +:+ pretty (post_id vote))
                  None), db)
    | None =>
        let new_vote := {| Vote_post_id := post_id vote;
                           Vote_owner_id := User_id current_user |} in
        match insert_vote new_vote db with
        | Return db' => (Return (ReplyVote new_vote), db')
        | Raise e => (Raise e, db)
        end
    end
  else if decide (dir vote = 0) then
    match existing_vote with
    | None =>
        (Raise (HTTPException HTTP_404_NOT_FOUND "Vote does not exist" None), db)
    | Some existing =>
        (Return (ReplyResponse HTTP_204_NO_CONTENT), delete_vote existing db)
    end
  else
    (Raise (HTTPException HTTP_400_BAD_REQUEST "Invalid vote direction" None), db).

(** The route [POST /votes/] for an authenticated caller: the request
    body is validated against [VoteSchema] first, and the handler runs
    only on a body that validates. *)
Definition vote_route (body_post_id body_dir : Z) (db : Session)
    (current_user : User) : result vote_reply * Session :=
  match VoteSchema_validate body_post_id body_dir with
  | Return v => vote v db current_user
  | Raise e => (Raise e, db)
  end.

(** Names for the two requests, the row they are about, the two errors
    of the state machine, and a session with its votes replaced. *)
Definition add_request (p : Z) : VoteSchema := {| post_id := p; dir := 1 |}.

Definition remove_request (p : Z) : VoteSchema := {| post_id := p; dir := 0 |}.

Definition vote_row (p : Z) (u : User) : Vote :=
  {| Vote_post_id := p; Vote_owner_id := User_id u |}.

Definition with_votes (db : Session) (vs : gset Vote) : Session :=
  {| users := users db; posts := posts db; votes := vs |}.

Definition conflict (p : Z) (u : User) : exn :=
  HTTPException HTTP_409_CONFLICT
    ("user " +:+ pretty (User_id u) +:+ " has already voted on post " +:+ pretty p)
    None.

Definition vote_not_found : exn :=
  HTTPException HTTP_404_NOT_FOUND "Vote does not exist" None.

(* ===================================================================== *)
(** ** app/routers/users.py                                               *)
(* ===================================================================== *)

(** The [UserCreate] of [app/schema.py], already validated. *)
Record UserCreate := {
  UserCreate_email : string;
  UserCreate_password : string
}.

(** [db.query(User).filter(User.email == email)]. *)
Definition users_by_email (db : Session) (email : string) : list User :=
  filter (λ u, User_email u = email) (users db).

(** [db.add(new_user); db.commit()]: the insert is refused with an
    [IntegrityError] when the primary key or the email ([unique=True]) is
    taken; otherwise the row is appended. *)
Definition insert_user (u : User) (db : Session) : result Session :=
  if decide (users_by_id db (User_id u) = []) then
    if decide (users_by_email db (User_email u) = []) then
      Return {| users := users db ++ [u];
                posts := posts db;
                votes := votes db |}
    else Raise IntegrityError
  else Raise IntegrityError.

(** [new_id] and [now] are the two values the database fills in ([id]
    from its sequence, [created_at] from [func.now()]); [salt] is the
    randomness of the hasher. The list of hashers of [password_hash] is
    never empty, so the first branch is not taken. *)
Definition create_user `{Argon2} (user : UserCreate) (db : Session)
    (new_id : Z) (now : instant) (salt : string) : result User * Session :=
  match hash_password (UserCreate_password user) salt with
  | None => (Raise TypeError, db)
  | Some hashed_password =>
      let new_user := {| User_id := new_id;
                         User_email := UserCreate_email user;
                         User_password := hashed_password;
                         User_created_at := now |} in
      match insert_user new_user db with
      | Return db' => (Return new_user, db')
      | Raise e => (Raise e, db)
      end
  end.

Definition user_not_found (id : Z) : exn :=
  HTTPException HTTP_404_NOT_FOUND
    ("user with id " +:+ pretty id +:+ " not found") None.

Definition get_user (id : Z) (db : Session) : result User :=
  let user := first (users_by_id db id) in
  match user with
  | None => Raise (user_not_found id)
  | Some user => Return user
  end.

(* ===================================================================== *)
(** ** app/routers/posts.py: creating and listing                         *)
(* ===================================================================== *)

(** [db.add(new_post); db.commit()]: refused when the primary key is
    taken or the owner has no row; otherwise the row is appended. *)
Definition insert_post (p : Post) (db : Session) : result Session :=
  if decide (posts_by_id db (Post_id p) = []) then
    if decide (users_by_id db (Post_owner_id p) = []) then Raise IntegrityError
    else Return {| users := users db;
                   posts := posts db ++ [p];
                   votes := votes db |}
  else Raise IntegrityError.

(** As for [create_user], [new_id] and [now] are what the database fills
    in. *)
Definition create_post (post : PostCreate) (db : Session) (current_user : User)
    (new_id : Z) (now : instant) : result Post * Session :=
  let new_post := {| Post_id := new_id;
                     Post_owner_id := User_id current_user;
                     Post_title := PostCreate_title post;
                     Post_content := PostCreate_content post;
                     Post_published := PostCreate_published post;
                     Post_created_at := now |} in
  match insert_post new_post db with
  | Return db' => (Return new_post, db')
  | Raise e => (Raise e, db)
  end.

(** The database's [title LIKE '%' || search || '%'], taken as given. *)
Class Sql := {
  title_contains : string → string → bool
}.

(** [LIMIT] and [OFFSET] are 64-bit integers to the database: the first
    value it cannot take. *)
Definition bigint_bound : Z := 9223372036854775808.

(** What the listing query gives: its rows, or the refusal of a [LIMIT]
    or [OFFSET] that is negative or out of range. *)
Inductive listing (A : Type) :=
| Rows (rows : list A)
| DataError.
Arguments Rows {A} rows.
Arguments DataError {A}.

(** The query of [get_posts]: the joined and grouped posts whose title
    matches, [OFFSET skip], [LIMIT limit], each turned into a
    [PostJoin]. *)
Definition get_posts `{Sql} (db : Session) (limit skip : Z) (search : string)
    : listing PostJoin :=
  if decide (limit < 0 ∨ skip < 0 ∨ bigint_bound ≤ limit ∨ bigint_bound ≤ skip)
  then DataError
  else
    let posts :=
      take (Z.to_nat limit)
        (drop (Z.to_nat skip)
           (filter (λ row, title_contains (Post_title row.1) search = true)
              (posts_with_votes db))) in
    Rows ((λ row, {| PostJoin_post := row.1; PostJoin_votes := row.2 |}) <$> posts).

(* ===================================================================== *)
(** ** Integrity of a session                                             *)
(* ===================================================================== *)

(** The keys [app/models.py] declares: ids are primary keys, emails are
    unique. *)
Definition keys_unique (db : Session) : Prop :=
  NoDup (User_id <$> users db)
  ∧ NoDup (User_email <$> users db)
  ∧ NoDup (Post_id <$> posts db).

(** The foreign keys [app/models.py] declares: a post references its
    owner, a vote references its post and its owner. *)
Definition references_hold (db : Session) : Prop :=
  Forall (λ p, users_by_id db (Post_owner_id p) ≠ []) (posts db)
  ∧ set_Forall (λ v, posts_by_id db (Vote_post_id v) ≠ []
                     ∧ users_by_id db (Vote_owner_id v) ≠ []) (votes db).

Definition consistent (db : Session) : Prop :=
  keys_unique db ∧ references_hold db.

(* ===================================================================== *)
(** ** Concrete instances used by the examples                            *)
(* ===================================================================== *)

Module Fixtures.

(** The defaults of [app/oauth2.py] with a sample secret. *)
Definition settings : Settings :=
  {| SECRET_KEY := "s3cr3t";
     ALGORITHM := "HS256";
     ACCESS_TOKEN_EXPIRE_MINUTES := 30 |}.

(** A stand-in signature that depends on the algorithm, the key and the
    two claims the application writes. *)
Definition toy_sign (alg key : string) (payload : gmap string json) : string :=
  alg +:+ ":" +:+ key +:+ ":"
  +:+ match dict_get payload "user_id" with JInt n => pretty n | _ => "-" end
  +:+ ":"
  +:+ match dict_get payload "exp" with JInt n => pretty n | _ => "-" end.

Definition runtime : Runtime :=
  {| sign := toy_sign;
     int_of_other := λ v, match v with
                          | JNull => IntTypeError
                          | JBool b => IntOk (if b then 1 else 0)
                          | _ => IntValueError
                          end;
     username_of_other := λ _, None |}.

(** A stand-in Argon2: the encoded hash is the variant and version tag,
    the salt and the password. A string is recognised when it starts
    with the tag of one of the three variants; only hashes of the [id]
    variant verify. *)
Definition argon2 : Argon2 :=
  {| argon2_identify := λ hash,
       String.prefix "$argon2id$v=19$" hash
       || String.prefix "$argon2i$v=19$" hash
       || String.prefix "$argon2d$v=19$" hash;
     argon2_hash := λ password salt,
       "$argon2id$v=19$" +:+ salt +:+ "$" +:+ password;
     argon2_verify := λ hash password,
       if String.prefix "$argon2id$v=19$" hash
       then if decide (hash = "$argon2id$v=19$salt$" +:+ password)
            then Argon2Verified else VerifyMismatchError
       else InvalidHashError |}.

Definition alice : User :=
  {| User_id := 1; User_email := "a@x.com";
     User_password := "$argon2id$v=19$salt$secret1"; User_created_at := 0 |}.

Definition bob : User :=
  {| User_id := 2; User_email := "b@x.com";
     User_password := "$argon2id$v=19$salt$secret2"; User_created_at := 0 |}.

Definition post1 : Post :=
  {| Post_id := 1; Post_owner_id := 1; Post_title := "first";
     Post_content := "hello"; Post_published := true; Post_created_at := 0 |}.

Definition post2 : Post :=
  {| Post_id := 2; Post_owner_id := 2; Post_title := "second";
     Post_content := "world"; Post_published := true; Post_created_at := 0 |}.

(** Two users, one post each, no votes. *)
Definition db0 : Session :=
  {| users := [alice; bob]; posts := [post1; post2]; votes := ∅ |}.

(** Two users and no post at all. *)
Definition db_no_posts : Session :=
  {| users := [alice; bob]; posts := []; votes := ∅ |}.

(** A table in which one user's stored password is not a hash. *)
Definition carol : User :=
  {| User_id := 3; User_email := "c@x.com";
     User_password := "plaintext"; User_created_at := 0 |}.

Definition db_legacy : Session :=
  {| users := [alice; carol]; posts := []; votes := ∅ |}.

(** A stand-in for the database's pattern match: plain containment. *)
Fixpoint substring_of (needle s : string) : bool :=
  String.prefix needle s
  || match s with
     | EmptyString => false
     | String _ rest => substring_of needle rest
     end.

Definition sql : Sql := {| title_contains := λ title search, substring_of search title |}.

(** The sample table with two votes on post 2 and one on post 1. *)
Definition db_voted : Session :=
  {| users := [alice; bob];
     posts := [post1; post2];
     votes := {[ {| Vote_post_id := 2; Vote_owner_id := 1 |};
                 {| Vote_post_id := 2; Vote_owner_id := 2 |};
                 {| Vote_post_id := 1; Vote_owner_id := 2 |} ]} |}.

End Fixtures.

(** Closes a decidable goal about concrete data by evaluating its
    decision procedure. *)
Ltac by_computing := refine (bool_decide_unpack _ _); vm_compute; exact I.

(* ===================================================================== *)
(** * Properties                                                          *)
(* ===================================================================== *)

(** ** Token service *)

Section TokenService.
Context `{Settings, Runtime}.

(** Decoding looks at nothing but the token, the key, the allowed
    algorithms and the clock: a freshly signed token whose [exp] lies
    after [now] decodes to the claims that were signed. *)
Lemma jwt_decode_encode (payload : gmap string json) (key alg : string)
    (exp : Z) (now : instant) :
  payload !! "exp" = Some (JInt exp) →
  now < exp * 1000000 →
  jwt_decode (jwt_encode payload key alg) key [alg] now = Return payload.
Proof.
  intros Hexp Hnow. unfold jwt_decode, jwt_encode.
  rewrite decide_True by apply list_elem_of_singleton, eq_refl.
  rewrite decide_True by reflexivity.
  rewrite Hexp. simpl.
  rewrite decide_False by lia. reflexivity.
Qed.

(** Dropping the microseconds loses less than a second, and a minute
    has sixty of them. *)
Lemma issued_exp_after_now (now : instant) :
  1 ≤ ACCESS_TOKEN_EXPIRE_MINUTES →
  now < timegm (now + timedelta_minutes ACCESS_TOKEN_EXPIRE_MINUTES) * 1000000.
Proof.
  intros Httl. unfold timegm, timedelta_minutes.
  pose proof (Z.mod_pos_bound
                (now + ACCESS_TOKEN_EXPIRE_MINUTES * 60 * 1000000) 1000000
                ltac:(lia)) as Hmod.
  pose proof (Z.div_mod
                (now + ACCESS_TOKEN_EXPIRE_MINUTES * 60 * 1000000) 1000000
                ltac:(lia)) as Hdiv.
  lia.
Qed.

(** A token past its [exp] never decodes, whatever else is wrong or
    right with it. *)
Lemma jwt_decode_expired alg payload signature key algorithms
    (expires_at : Z) (now : instant) :
  payload !! "exp" = Some (JInt expires_at) →
  expires_at * 1000000 ≤ now →
  ∃ e, jwt_decode (Compact alg payload signature) key algorithms now
       = Raise (InvalidTokenError e).
Proof.
  intros Hexp Hnow. unfold jwt_decode.
  destruct (decide (alg ∈ algorithms)); [|eauto].
  destruct (decide (sign alg key payload = signature)); [|eauto].
  rewrite Hexp. simpl. rewrite decide_True by lia. eauto.
Qed.

(** Every error of the JWT library becomes the caller's exception. *)
Lemma verify_access_token_invalid t exc now e :
  jwt_decode t SECRET_KEY [ALGORITHM] now = Raise (InvalidTokenError e) →
  verify_access_token t exc now = Raise exc.
Proof. intros Hdec. unfold verify_access_token. rewrite Hdec. reflexivity. Qed.

(** The claims of a freshly issued token, and what decoding it within
    its time-to-live gives back. *)
Lemma issued_token_decodes (user_id : Z) (now : instant) :
  1 ≤ ACCESS_TOKEN_EXPIRE_MINUTES →
  ∃ payload,
    jwt_decode (issue user_id now) SECRET_KEY [ALGORITHM] now = Return payload
    ∧ dict_get payload "user_id" = JInt user_id.
Proof.
  intros Httl. unfold issue, create_access_token.
  eexists. split.
  - eapply jwt_decode_encode; [apply lookup_insert_eq|].
    by apply issued_exp_after_now.
  - unfold dict_get.
    rewrite lookup_insert_ne by discriminate.
    by rewrite lookup_singleton_eq.
Qed.

(** C1. Token round-trip: with a time-to-live of at least one minute,
    the token issued for [user_id] at [now] verifies at that same
    instant and yields exactly [user_id]. *)
Theorem token_roundtrip (user_id : Z) (now : instant) (exc : exn) :
  1 ≤ ACCESS_TOKEN_EXPIRE_MINUTES →
  verify_access_token (issue user_id now) exc now
  = Return {| username := Some user_id |}.
Proof.
  intros Httl.
  destruct (issued_token_decodes user_id now Httl) as (payload & Hdec & Hid).
  unfold verify_access_token. rewrite Hdec, Hid.
  rewrite decide_False by discriminate. reflexivity.
Qed.

(** An expired token is refused with the caller's exception. *)
Lemma verify_access_token_expired alg payload signature
    (expires_at : Z) (now : instant) (exc : exn) :
  payload !! "exp" = Some (JInt expires_at) →
  expires_at * 1000000 ≤ now →
  verify_access_token (Compact alg payload signature) exc now = Raise exc.
Proof.
  intros Hexp Hnow.
  destruct (jwt_decode_expired alg payload signature SECRET_KEY
              [ALGORITHM] expires_at now Hexp Hnow) as [e He].
  by eapply verify_access_token_invalid.
Qed.

(** The same for the tokens the application issues: the token issued
    at [issued_at] is refused from the second its time-to-live ends. *)
Lemma issued_token_expires (user_id : Z) (issued_at now : instant) exc :
  timegm (issued_at + timedelta_minutes ACCESS_TOKEN_EXPIRE_MINUTES) * 1000000 ≤ now →
  verify_access_token (issue user_id issued_at) exc now = Raise exc.
Proof.
  intros Hnow. unfold issue, create_access_token, jwt_encode.
  eapply verify_access_token_expired; [apply lookup_insert_eq | exact Hnow].
Qed.

(** C2. Token expiry boundary: a token that carries the expiration
    [expires_at] (in seconds) fails verification at every instant
    [now] at or after it, and in particular exactly at it. *)
Theorem token_expiry_boundary alg payload signature
    (expires_at : Z) (now : instant) (exc : exn) :
  payload !! "exp" = Some (JInt expires_at) →
  expires_at * 1000000 ≤ now →
  verify_access_token (Compact alg payload signature) exc now = Raise exc
  ∧ verify_access_token (Compact alg payload signature) exc
      (expires_at * 1000000) = Raise exc.
Proof.
  intros Hexp Hnow.
  split; eapply verify_access_token_expired; eauto; lia.
Qed.

End TokenService.

(** ** Auth guard *)

Section AuthGuard.
Context `{Settings, Runtime}.


(** Whatever [HTTPException] the guard raises is the generic one. *)
Lemma guard_raises_only_credentials t db now status_code detail headers :
  get_current_active_user t db now
    = Raise (HTTPException status_code detail headers) →
  HTTPException status_code detail headers = credentials_exception.
Proof.
  unfold get_current_active_user, verify_access_token.
  destruct (jwt_decode t SECRET_KEY [ALGORITHM] now) as [payload|e] eqn:Hdec.
  - destruct (decide (dict_get payload "user_id" = JNull)).
    + by intros [= <- <- <-].
    + unfold TokenData_of.
      destruct (dict_get payload "user_id") as [|b|uid|s]; simpl;
        repeat match goal with
               | |- context [username_of_other ?v] =>
                   destruct (username_of_other v); simpl
               | |- context [first ?l] => destruct (first l); simpl
               end;
        first [ by intros [= <- <- <-] | discriminate ].
  - destruct e; try discriminate.
    + unfold jwt_decode in Hdec.
      repeat match type of Hdec with
             | context [match ?x with _ => _ end] => destruct x
             end; discriminate.
    + by intros [= <- <- <-].
Qed.

(** Besides the generic exception, the guard can only fail with one of
    the two errors it does not catch: the [TypeError] of an [exp] that is
    no number and the [ValidationError] of a [user_id] that is no
    integer. *)
Lemma guard_failure_kinds t db now e :
  get_current_active_user t db now = Raise e →
  e = credentials_exception ∨ e = TypeError ∨ e = ValidationError.
Proof.
  unfold get_current_active_user, verify_access_token.
  destruct (jwt_decode t SECRET_KEY [ALGORITHM] now) as [payload|e'] eqn:Hdec.
  - destruct (decide (dict_get payload "user_id" = JNull)).
    + intros [= <-]. by left.
    + unfold TokenData_of.
      destruct (dict_get payload "user_id") as [|b|uid|str]; simpl;
        repeat match goal with
               | |- context [username_of_other ?v] =>
                   destruct (username_of_other v); simpl
               | |- context [first ?l] => destruct (first l); simpl
               end;
        intros [= <-]; auto.
  - destruct e'; try (intros [= <-]; by auto);
      unfold jwt_decode in Hdec;
      repeat match type of Hdec with
             | context [match ?x with _ => _ end] => destruct x
             end; discriminate.
Qed.


(** The guard accepts the token just issued for a user that has a row,
    and hands back the first row with that id. *)
Lemma guard_accepts_issued (user : User) (db : Session) (now : instant) :
  1 ≤ ACCESS_TOKEN_EXPIRE_MINUTES →
  first (users_by_id db (User_id user)) = Some user →
  get_current_active_user (issue (User_id user) now) db now = Return user.
Proof.
  intros Httl Hrow.
  destruct (issued_token_decodes (User_id user) now Httl)
    as (payload & Hdec & Hid).
  unfold get_current_active_user, verify_access_token.
  rewrite Hdec, Hid. rewrite decide_False by discriminate.
  simpl. by rewrite Hrow.
Qed.

End AuthGuard.

(** ** Login *)

Section Login.
Context `{Settings, Runtime, Argon2}.

(** A login that succeeds hands out the token issued for the id of the
    first user with that email. *)
Lemma login_issues form_username form_password db now tok :
  login form_username form_password db now = Return tok →
  ∃ user, first (filter (λ u, User_email u = form_username) (users db)) = Some user
          ∧ verify_password form_password (User_password user) = Return true
          ∧ access_token tok = issue (User_id user) now.
Proof.
  unfold login.
  destruct (first (filter _ (users db))) as [user|] eqn:Huser; [|discriminate].
  destruct (verify_password form_password (User_password user))
    as [[|]|e] eqn:Hpw; try discriminate.
  intros [= <-]. by exists user.
Qed.

End Login.

(** ** Posts *)

Section Posts.

Lemma delete_post_missing id db current_user :
  posts_by_id db id = [] →
  delete_post id db current_user = (Raise (post_not_found id), db).
Proof. intros Hmiss. unfold delete_post. by rewrite Hmiss. Qed.

Lemma update_post_missing id post db current_user :
  posts_by_id db id = [] →
  update_post id post db current_user = (Raise (post_not_found id), db).
Proof. intros Hmiss. unfold update_post. by rewrite Hmiss. Qed.

(** The row a lookup by id finds has that id and is in the table. *)
Lemma posts_by_id_first id db post :
  first (posts_by_id db id) = Some post →
  post ∈ posts db ∧ Post_id post = id.
Proof.
  unfold first, posts_by_id. intros Hhead.
  apply head_Some_elem_of in Hhead.
  by apply list_elem_of_filter in Hhead as [? ?].
Qed.

(** C6. Existence before ownership: for an id with no row, delete and
    update answer 404 whoever the actor is (the answer does not depend
    on the actor, so no owner was compared), and neither answers 403. *)
Theorem existence_before_ownership (id : Z) (db : Session) :
  posts_by_id db id = [] →
  (∀ current_user,
      delete_post id db current_user = (Raise (post_not_found id), db))
  ∧ (∀ post current_user,
      update_post id post db current_user = (Raise (post_not_found id), db))
  ∧ response_status (post_not_found id) = HTTP_404_NOT_FOUND
  ∧ (∀ current_user e,
      (delete_post id db current_user).1 = Raise e →
      response_status e ≠ HTTP_403_FORBIDDEN)
  ∧ (∀ post current_user e,
      (update_post id post db current_user).1 = Raise e →
      response_status e ≠ HTTP_403_FORBIDDEN).
Proof.
  intros Hmiss. repeat split.
  - intros u. by apply delete_post_missing.
  - intros body u. by apply update_post_missing.
  - intros u e. rewrite delete_post_missing by done.
    by intros [= <-].
  - intros body u e. rewrite update_post_missing by done.
    by intros [= <-].
Qed.

(** A 403 from delete or update names a post that is in the table and
    whose owner is not the actor. *)
Lemma forbidden_implies_exists id db current_user e :
  (delete_post id db current_user).1 = Raise e →
  response_status e = HTTP_403_FORBIDDEN →
  ∃ post, post ∈ posts db ∧ Post_id post = id
          ∧ Post_owner_id post ≠ User_id current_user.
Proof.
  unfold delete_post.
  destruct (first (posts_by_id db id)) as [post|] eqn:Hfirst; simpl.
  - apply posts_by_id_first in Hfirst as [Hin Hid].
    destruct (decide (Post_owner_id post ≠ User_id current_user)); simpl.
    + intros _ _. eauto.
    + discriminate.
  - by intros [= <-].
Qed.

(** What the single-post read returns: the first row of the joined
    query, whatever [id] is. *)
Lemma get_post_first id db :
  returned (get_post id db)
  = (λ row, {| PostJoin_post := row.1; PostJoin_votes := row.2 |})
      <$> first (posts_with_votes db).
Proof.
  unfold get_post.
  by destruct (first (posts_with_votes db)) as [[p n]|].
Qed.

(** C10. The single-post read does not depend on its id argument:
    for two ids it returns the same post with the same vote count, and
    the id shows only in the 404 of an empty table. *)
Theorem get_post_ignores_id (db : Session) (i j : Z) :
  returned (get_post i db) = returned (get_post j db)
  ∧ match posts db with
    | [] => get_post i db = Raise (post_not_found i)
    | p :: _ =>
        get_post i db
        = Return {| PostJoin_post := p;
                    PostJoin_votes :=
                      Z.of_nat (size (filter (λ v, Vote_post_id v = Post_id p)
                                        (votes db))) |}
    end.
Proof.
  split.
  - by rewrite !get_post_first.
  - unfold get_post, posts_with_votes.
    by destruct (posts db).
Qed.

(** C5 on the code. With two posts in the table, the owner of post 1
    deletes it, the delete succeeds and post 1 is gone from the table,
    and the read of id 1 that follows does not answer 404: it returns
    post 2. *)
Theorem get_after_delete_returns_other_post :
  (delete_post 1 Fixtures.db0 Fixtures.alice).1 = Return ()
  ∧ posts_by_id (delete_post 1 Fixtures.db0 Fixtures.alice).2 1 = []
  ∧ get_post 1 (delete_post 1 Fixtures.db0 Fixtures.alice).2
    = Return {| PostJoin_post := Fixtures.post2; PostJoin_votes := 0 |}.
Proof. repeat split. Qed.

End Posts.

(** ** Votes *)

Section Votes.

Lemma elem_of_union_r_singleton (v : Vote) (vs : gset Vote) : v ∈ vs ∪ {[ v ]}.
Proof. apply elem_of_union_r. by apply elem_of_singleton. Qed.

Lemma not_elem_of_difference_singleton (v : Vote) (vs : gset Vote) :
  v ∉ vs ∖ {[ v ]}.
Proof.
  intros [_ Hne]%elem_of_difference. apply Hne. by apply elem_of_singleton.
Qed.

Lemma union_difference_singleton_fresh (v : Vote) (vs : gset Vote) :
  v ∉ vs → (vs ∪ {[ v ]}) ∖ {[ v ]} = vs.
Proof.
  intros Hfresh. apply set_eq. intros x.
  rewrite elem_of_difference, elem_of_union, elem_of_singleton.
  split.
  - intros [[Hx| ->] Hne]; [done | by destruct Hne].
  - intros Hx. split; [by left | by intros ->].
Qed.

Lemma find_vote_Some db p u :
  vote_row p u ∈ votes db → find_vote db p (User_id u) = Some (vote_row p u).
Proof. intros Hin. unfold find_vote. by rewrite decide_True. Qed.

Lemma find_vote_None db p u :
  vote_row p u ∉ votes db → find_vote db p (User_id u) = None.
Proof. intros Hin. unfold find_vote. by rewrite decide_False. Qed.

Lemma users_by_id_elem db u : u ∈ users db → users_by_id db (User_id u) ≠ [].
Proof.
  intros Hin Hnil.
  assert (u ∈ users_by_id db (User_id u)) as Hu
    by (by apply list_elem_of_filter).
  rewrite Hnil in Hu. by apply not_elem_of_nil in Hu.
Qed.

Lemma vote_add_conflict db p u :
  vote_row p u ∈ votes db →
  vote (add_request p) db u = (Raise (conflict p u), db).
Proof. intros Hin. unfold vote. simpl. by rewrite find_vote_Some. Qed.

Lemma vote_add_fresh db p u :
  u ∈ users db → posts_by_id db p ≠ [] → vote_row p u ∉ votes db →
  vote (add_request p) db u
  = (Return (ReplyVote (vote_row p u)),
     with_votes db (votes db ∪ {[ vote_row p u ]})).
Proof.
  intros Hu Hp Hin. unfold vote. simpl. rewrite find_vote_None by done.
  unfold insert_vote. simpl.
  rewrite decide_False by done.
  rewrite decide_False by done.
  rewrite decide_False by (by apply users_by_id_elem).
  done.
Qed.

Lemma vote_remove_missing db p u :
  vote_row p u ∉ votes db →
  vote (remove_request p) db u = (Raise vote_not_found, db).
Proof. intros Hin. unfold vote. simpl. by rewrite find_vote_None. Qed.

Lemma vote_remove_present db p u :
  vote_row p u ∈ votes db →
  vote (remove_request p) db u
  = (Return (ReplyResponse HTTP_204_NO_CONTENT),
     with_votes db (votes db ∖ {[ vote_row p u ]})).
Proof. intros Hin. unfold vote. simpl. by rewrite find_vote_Some. Qed.

(** A vote for a post that has no row is refused by the foreign key,
    and nothing is written. *)
Lemma vote_add_missing_post db p u :
  posts_by_id db p = [] → vote_row p u ∉ votes db →
  vote (add_request p) db u = (Raise IntegrityError, db).
Proof.
  intros Hp Hin. unfold vote. simpl. rewrite find_vote_None by done.
  unfold insert_vote. simpl.
  rewrite decide_False by done. by rewrite decide_True.
Qed.

(** C3, as the code has it. For an authenticated user [u] (a row of
    [users]) and a post id [p]: an add is a 409 when the row [(p, u)]
    is there, and when it is not and post [p] exists it creates
    exactly that row and returns it; a remove is a 404 when the row is
    not there and otherwise deletes exactly that row. Hence, on an
    existing post without the row: add succeeds, a second add is the
    409, remove succeeds, a second remove is the 404, and the votes are
    back where they started. *)
Theorem vote_state_machine (db : Session) (u : User) (p : Z) :
  u ∈ users db →
  (vote_row p u ∈ votes db →
     vote (add_request p) db u = (Raise (conflict p u), db))
  ∧ (vote_row p u ∉ votes db → posts_by_id db p ≠ [] →
     vote (add_request p) db u
     = (Return (ReplyVote (vote_row p u)),
        with_votes db (votes db ∪ {[ vote_row p u ]})))
  ∧ (vote_row p u ∉ votes db →
     vote (remove_request p) db u = (Raise vote_not_found, db))
  ∧ (vote_row p u ∈ votes db →
     vote (remove_request p) db u
     = (Return (ReplyResponse HTTP_204_NO_CONTENT),
        with_votes db (votes db ∖ {[ vote_row p u ]})))
  ∧ (vote_row p u ∉ votes db → posts_by_id db p ≠ [] →
     let step1 := vote (add_request p) db u in
     let step2 := vote (add_request p) step1.2 u in
     let step3 := vote (remove_request p) step2.2 u in
     let step4 := vote (remove_request p) step3.2 u in
     step1.1 = Return (ReplyVote (vote_row p u))
     ∧ step2.1 = Raise (conflict p u)
     ∧ step3.1 = Return (ReplyResponse HTTP_204_NO_CONTENT)
     ∧ step4.1 = Raise vote_not_found
     ∧ votes step4.2 = votes db).
Proof.
  intros Hu. split; [|split; [|split; [|split]]].
  - apply vote_add_conflict.
  - intros Hin Hp. by apply vote_add_fresh.
  - apply vote_remove_missing.
  - apply vote_remove_present.
  - intros Hin Hp. cbv zeta.
    rewrite (vote_add_fresh db p u) by done. cbn [fst snd].
    rewrite vote_add_conflict by (simpl; apply elem_of_union_r_singleton).
    cbn [fst snd].
    rewrite vote_remove_present by (simpl; apply elem_of_union_r_singleton).
    cbn [fst snd].
    rewrite vote_remove_missing by (simpl; apply not_elem_of_difference_singleton).
    cbn [fst snd].
    repeat split. simpl. by apply union_difference_singleton_fresh.
Qed.

(** C9, as the code has it. A direction other than 0 and 1 does not
    validate against [VoteSchema]: the route answers 422 without
    calling the handler and the session is unchanged. The handler's own
    last branch, for such a value handed to it directly, is the 400. *)
Theorem invalid_vote_direction (p d : Z) (db : Session) (u : User) :
  d ≠ 1 → d ≠ 0 →
  vote_route p d db u = (Raise RequestValidationError, db)
  ∧ response_status RequestValidationError = HTTP_422_UNPROCESSABLE_ENTITY
  ∧ vote {| post_id := p; dir := d |} db u
    = (Raise (HTTPException HTTP_400_BAD_REQUEST "Invalid vote direction" None),
       db).
Proof.
  intros Hd1 Hd0. repeat split.
  - unfold vote_route, VoteSchema_validate.
    rewrite decide_False; [done|]. by intros [?|?].
  - unfold vote. simpl. by rewrite !decide_False.
Qed.

(** On a direction that validates, the route is the handler. *)
Lemma vote_route_valid p d db u :
  d = 0 ∨ d = 1 →
  vote_route p d db u = vote {| post_id := p; dir := d |} db u.
Proof.
  intros Hd. unfold vote_route, VoteSchema_validate. by rewrite decide_True.
Qed.

End Votes.

(** ** Credential hasher *)

Section CredentialHasher.
Context `{Argon2}.

(** A stored hash that no hasher identifies makes verification raise. *)
Lemma verify_password_unidentified (plain hashed : string) :
  argon2_identify hashed = false →
  verify_password plain hashed = Raise UnknownHashError.
Proof.
  intros Htag. unfold verify_password, PasswordHash_verify, password_hash.
  cbn [find identify Argon2Hasher]. by rewrite Htag.
Qed.

Lemma verify_password_identified (plain hashed : string) :
  argon2_identify hashed = true →
  verify_password plain hashed
  = Return (hasher_verify Argon2Hasher plain hashed).
Proof.
  intros Htag. unfold verify_password, PasswordHash_verify, password_hash.
  cbn [find identify Argon2Hasher]. by rewrite Htag.
Qed.

(** C8, as the code has it. For a stored hash that the configured
    hasher recognises as an encoded Argon2 hash, verification raises
    nothing: it returns [True] exactly when Argon2 verifies the password,
    and [False] when Argon2 reports the hash invalid or the password
    wrong. A stored hash that the hasher does not recognise raises
    [UnknownHashError]. *)
Theorem verify_password_total_on_identified (plain hashed : string) :
  argon2_identify hashed = true →
  (∃ b, verify_password plain hashed = Return b
        ∧ (b = true ↔ argon2_verify hashed plain = Argon2Verified))
  ∧ (argon2_verify hashed plain = InvalidHashError →
     verify_password plain hashed = Return false)
  ∧ (∀ other, argon2_identify other = false →
     verify_password plain other = Raise UnknownHashError).
Proof.
  intros Htag. rewrite verify_password_identified by done.
  cbn [hasher_verify Argon2Hasher].
  split; [|split].
  - eexists. split; [reflexivity|].
    by destruct (argon2_verify hashed plain).
  - by intros ->.
  - intros other. apply verify_password_unidentified.
Qed.

End CredentialHasher.

(** ** Lifetime of an issued token *)

Section TokenLifetime.
Context `{Settings, Runtime}.

(** The second an issued token expires at. *)
Lemma timegm_bounds (t : instant) :
  timegm t * 1000000 ≤ t < timegm t * 1000000 + 1000000.
Proof.
  unfold timegm.
  pose proof (Z.mod_pos_bound t 1000000 ltac:(lia)).
  pose proof (Z.div_mod t 1000000 ltac:(lia)).
  lia.
Qed.

Lemma issued_token_decodes_before (user_id : Z) (issued_at now : instant) :
  now < timegm (issued_at + timedelta_minutes ACCESS_TOKEN_EXPIRE_MINUTES) * 1000000 →
  ∃ payload,
    jwt_decode (issue user_id issued_at) SECRET_KEY [ALGORITHM] now = Return payload
    ∧ dict_get payload "user_id" = JInt user_id.
Proof.
  intros Hnow. unfold issue, create_access_token.
  eexists. split.
  - eapply jwt_decode_encode; [apply lookup_insert_eq | exact Hnow].
  - unfold dict_get.
    rewrite lookup_insert_ne by discriminate.
    by rewrite lookup_singleton_eq.
Qed.

(** X1. The window of an issued token: verification of the token issued
    at [issued_at] succeeds, with the user id it was issued for, at
    exactly the instants before the whole second its expiration was
    written as, and raises the caller's exception from that second on.
    Nothing ties the window to the instant of issue from below. *)
Theorem issued_token_window (user_id : Z) (issued_at now : instant) (exc : exn) :
  verify_access_token (issue user_id issued_at) exc now
  = if decide (timegm (issued_at + timedelta_minutes ACCESS_TOKEN_EXPIRE_MINUTES)
               * 1000000 ≤ now)
    then Raise exc
    else Return {| username := Some user_id |}.
Proof.
  case_decide as Hnow.
  - by apply issued_token_expires.
  - destruct (issued_token_decodes_before user_id issued_at now ltac:(lia))
      as (payload & Hdec & Hid).
    unfold verify_access_token. rewrite Hdec, Hid.
    by rewrite decide_False.
Qed.

(** X2. How long an issued token lives: it is accepted at every instant
    that is at least one second short of the configured time-to-live
    after the issue, and refused at every instant a full time-to-live or
    more after the issue (the second in between is lost to rounding). *)
Theorem issued_token_lifetime (user_id : Z) (issued_at early late : instant)
    (exc : exn) :
  early + 1000000 ≤ issued_at + timedelta_minutes ACCESS_TOKEN_EXPIRE_MINUTES →
  issued_at + timedelta_minutes ACCESS_TOKEN_EXPIRE_MINUTES ≤ late →
  verify_access_token (issue user_id issued_at) exc early
    = Return {| username := Some user_id |}
  ∧ verify_access_token (issue user_id issued_at) exc late = Raise exc.
Proof.
  intros Hearly Hlate.
  pose proof (timegm_bounds
                (issued_at + timedelta_minutes ACCESS_TOKEN_EXPIRE_MINUTES)) as Hb.
  split.
  - destruct (issued_token_decodes_before user_id issued_at early ltac:(lia))
      as (payload & Hdec & Hid).
    unfold verify_access_token. rewrite Hdec, Hid.
    by rewrite decide_False.
  - apply issued_token_expires. lia.
Qed.

(** X3. A token without an [exp] claim does not expire: signed with the
    configured key and algorithm and carrying only a user id, it verifies
    at every instant (verification does not require the claim). *)
Theorem token_without_exp_never_expires (user_id : Z) (now : instant) (exc : exn) :
  verify_access_token
    (jwt_encode {[ "user_id" := JInt user_id ]} SECRET_KEY ALGORITHM) exc now
  = Return {| username := Some user_id |}.
Proof.
  unfold verify_access_token, jwt_encode, jwt_decode.
  rewrite decide_True by apply list_elem_of_singleton, eq_refl.
  rewrite decide_True by reflexivity.
  rewrite lookup_singleton_ne by discriminate.
  unfold dict_get. by rewrite lookup_singleton_eq.
Qed.

(** X4. What a successful authentication guarantees: the user handed to
    the handler is a row of [users]; the token names the configured
    algorithm and carries the signature the configured key gives its
    claims; an integer [exp] claim lies strictly after the clock; and an
    integer [user_id] claim is the id of the returned user. *)
Theorem guard_sound (t : token) (db : Session) (now : instant) (user : User) :
  get_current_active_user t db now = Return user →
  user ∈ users db
  ∧ ∃ payload,
      t = Compact ALGORITHM payload (sign ALGORITHM SECRET_KEY payload)
      ∧ (∀ e, payload !! "exp" = Some (JInt e) → now < e * 1000000)
      ∧ (∀ n, payload !! "user_id" = Some (JInt n) → User_id user = n).
Proof.
  unfold get_current_active_user, verify_access_token.
  destruct (jwt_decode t SECRET_KEY [ALGORITHM] now) as [payload|e] eqn:Hdec;
    [|by destruct e].
  unfold jwt_decode in Hdec.
  destruct t as [s|alg claims signature]; [done|].
  destruct (decide (alg ∈ [ALGORITHM])) as [->%list_elem_of_singleton|]; [|done].
  destruct (decide (sign ALGORITHM SECRET_KEY claims = signature)) as [<-|]; [|done].
  assert (payload = claims ∧ ∀ e, claims !! "exp" = Some (JInt e) → now < e * 1000000)
    as [-> Hexp].
  { destruct (claims !! "exp") as [v|] eqn:Hv.
    - destruct (py_int v) as [n| |] eqn:Hint; try done.
      destruct (decide (n * 1000000 ≤ now)); [done|].
      injection Hdec as <-. split; [done|].
      intros e [= ->]. simpl in Hint. injection Hint as <-. lia.
    - injection Hdec as <-. by split. }
  clear Hdec.
  destruct (decide (dict_get claims "user_id" = JNull)) as [|Hnn]; [done|].
  destruct (TokenData_of (dict_get claims "user_id")) as [td|e] eqn:Htd; [|done].
  simpl.
  destruct (first (users_by_username db (username td))) as [u|] eqn:Hu; [|done].
  intros [= ->].
  assert (user ∈ users db ∧ username td = Some (User_id user)) as [Hin Hname].
  { unfold first in Hu. apply head_Some_elem_of in Hu.
    destruct (username td) as [id|]; simpl in Hu.
    - apply list_elem_of_filter in Hu as [<- ?]. by split.
    - by apply elem_of_nil in Hu. }
  split; [done|].
  exists claims. split; [done|]. split; [done|].
  intros n Hn. unfold dict_get in Htd. rewrite Hn in Htd. simpl in Htd.
  injection Htd as <-. simpl in Hname. by injection Hname.
Qed.

End TokenLifetime.

(** ** Login, continued *)

Section LoginMore.
Context `{Settings, Runtime, Argon2}.

(** In a table with unique ids, the lookup by a row's id finds that
    row. *)
Lemma users_by_id_unique db user :
  NoDup (User_id <$> users db) → user ∈ users db →
  first (users_by_id db (User_id user)) = Some user.
Proof.
  unfold first, users_by_id.
  induction (users db) as [|u l IH]; intros Hnd Hin.
  - by apply elem_of_nil in Hin.
  - rewrite fmap_cons in Hnd. apply NoDup_cons in Hnd as [Hu Hl].
    rewrite filter_cons.
    apply elem_of_cons in Hin as [->|Hin].
    + by rewrite decide_True.
    + rewrite decide_False; [by apply IH|].
      intros Heq. apply Hu. rewrite Heq.
      by apply list_elem_of_fmap_2.
Qed.

(** X5. A failed login does not say why: an email that no user has and
    a wrong password for a user that exists raise the same exception,
    the 401 [Invalid email or password]. *)
Theorem login_failure_uniform form_username form_password db now :
  (users_by_email db form_username = []
   ∨ ∃ user, first (users_by_email db form_username) = Some user
             ∧ verify_password form_password (User_password user) = Return false) →
  login form_username form_password db now = Raise invalid_login
  ∧ response_status invalid_login = HTTP_401_UNAUTHORIZED.
Proof.
  intros Hcause. split; [|done].
  unfold login. fold (users_by_email db form_username).
  destruct Hcause as [-> | (user & -> & ->)]; done.
Qed.

(** X6. Login, then the guard: in a table with unique user ids and a
    time-to-live of at least a minute, the token a successful login
    returns authenticates, at that instant, as a user with the email
    that logged in. *)
Theorem login_then_guard form_username form_password db now tok :
  1 ≤ ACCESS_TOKEN_EXPIRE_MINUTES →
  NoDup (User_id <$> users db) →
  login form_username form_password db now = Return tok →
  ∃ user, get_current_active_user (access_token tok) db now = Return user
          ∧ User_email user = form_username
          ∧ token_type tok = "bearer".
Proof.
  intros Httl Hnd Hlogin.
  unfold login in Hlogin. fold (users_by_email db form_username) in Hlogin.
  destruct (first (users_by_email db form_username)) as [user|] eqn:Huser;
    [|done].
  destruct (verify_password form_password (User_password user))
    as [[|]|e]; try done.
  injection Hlogin as <-.
  apply head_Some_elem_of, list_elem_of_filter in Huser as [Hmail Hin].
  exists user. split; [|done].
  change (create_access_token {[ "user_id" := JInt (User_id user) ]} now)
    with (issue (User_id user) now).
  apply guard_accepts_issued; [done|].
  by apply users_by_id_unique.
Qed.

(** X7. A stored password that is not an Argon2 hash is not a failed
    login: for a user whose stored password the hasher does not
    recognise as an encoded Argon2 hash, login raises [UnknownHashError],
    an internal error, instead of the 401. *)
Theorem login_unknown_hash form_username form_password db now user :
  first (users_by_email db form_username) = Some user →
  argon2_identify (User_password user) = false →
  login form_username form_password db now = Raise UnknownHashError
  ∧ response_status UnknownHashError = HTTP_500_INTERNAL_SERVER_ERROR.
Proof.
  intros Huser Htag. split; [|done].
  unfold login. fold (users_by_email db form_username). rewrite Huser.
  by rewrite verify_password_unidentified.
Qed.

End LoginMore.

(** ** Users *)

Section UsersRouter.
Context `{Settings, Runtime, Argon2}.

Lemma hash_password_Some password salt :
  hash_password password salt = Some (argon2_hash password salt).
Proof. reflexivity. Qed.

Lemma create_user_fresh user db new_id now salt :
  users_by_id db new_id = [] →
  users_by_email db (UserCreate_email user) = [] →
  create_user user db new_id now salt
  = (Return {| User_id := new_id;
               User_email := UserCreate_email user;
               User_password := argon2_hash (UserCreate_password user) salt;
               User_created_at := now |},
     {| users := users db
                 ++ [ {| User_id := new_id;
                         User_email := UserCreate_email user;
                         User_password := argon2_hash (UserCreate_password user) salt;
                         User_created_at := now |} ];
        posts := posts db;
        votes := votes db |}).
Proof.
  intros Hid Hmail. unfold create_user. rewrite hash_password_Some.
  unfold insert_user. cbn [User_id User_email].
  by rewrite !decide_True.
Qed.

(** X8. The user read is by id: what [get_user] returns is a row of
    [users] with the requested id, and it raises the 404 that names the
    id exactly when no row has it. *)
Theorem get_user_by_id (id : Z) (db : Session) :
  match get_user id db with
  | Return user => user ∈ users db ∧ User_id user = id
  | Raise e => e = user_not_found id ∧ ∀ u, u ∈ users db → User_id u ≠ id
  end.
Proof.
  unfold get_user, first.
  destruct (head (users_by_id db id)) as [user|] eqn:Hhead.
  - apply head_Some_elem_of, list_elem_of_filter in Hhead as [? ?]. by split.
  - split; [done|]. intros u Hu Hid.
    apply head_None in Hhead. unfold users_by_id in Hhead.
    exact (filter_nil_not_elem_of _ _ u Hhead Hid Hu).
Qed.

(** X9. Registration with a taken email (or a taken id) is refused by
    the table's constraint: the handler raises [IntegrityError], which
    the caller sees as an internal error, and the session is unchanged. *)
Theorem create_user_refused user db new_id now salt :
  users_by_id db new_id ≠ [] ∨ users_by_email db (UserCreate_email user) ≠ [] →
  create_user user db new_id now salt = (Raise IntegrityError, db)
  ∧ response_status IntegrityError = HTTP_500_INTERNAL_SERVER_ERROR.
Proof.
  intros Htaken. split; [|done].
  unfold create_user. rewrite hash_password_Some.
  unfold insert_user. cbn [User_id User_email].
  destruct (decide (users_by_id db new_id = [])); [|done].
  destruct (decide (users_by_email db (UserCreate_email user) = [])); [|done].
  by destruct Htaken.
Qed.

(** X10. Register, then log in. For an email and an id that are free,
    and an Argon2 that recognises and verifies the hash it just made
    for the password: the created user carries the
    hash and not the request's password field, is found by its id, and a
    login with the same email and password returns the bearer token
    issued for the new id; a password that Argon2 does not verify against
    the stored hash gets the 401. *)
Theorem register_then_login user db new_id now salt later :
  users_by_id db new_id = [] →
  users_by_email db (UserCreate_email user) = [] →
  argon2_identify (argon2_hash (UserCreate_password user) salt) = true →
  argon2_verify (argon2_hash (UserCreate_password user) salt)
                (UserCreate_password user) = Argon2Verified →
  ∃ new_user db',
    create_user user db new_id now salt = (Return new_user, db')
    ∧ User_password new_user = argon2_hash (UserCreate_password user) salt
    ∧ get_user new_id db' = Return new_user
    ∧ login (UserCreate_email user) (UserCreate_password user) db' later
      = Return {| access_token := issue new_id later; token_type := "bearer" |}
    ∧ (∀ other,
         argon2_verify (argon2_hash (UserCreate_password user) salt) other
           ≠ Argon2Verified →
         login (UserCreate_email user) other db' later = Raise invalid_login).
Proof.
  intros Hid Hmail Htag Hver.
  eexists _, _. split; [by apply create_user_fresh|].
  split; [done|].
  split.
  - unfold get_user, users_by_id. cbn [users].
    rewrite filter_app. fold (users_by_id db new_id). rewrite Hid.
    rewrite filter_cons, decide_True by done. done.
  - assert (∀ pw, login (UserCreate_email user) pw
              {| users := users db
                   ++ [ {| User_id := new_id;
                           User_email := UserCreate_email user;
                           User_password :=
                             argon2_hash (UserCreate_password user) salt;
                           User_created_at := now |} ];
                 posts := posts db; votes := votes db |} later
            = match argon2_verify
                      (argon2_hash (UserCreate_password user) salt) pw with
              | Argon2Verified =>
                  Return {| access_token := issue new_id later;
                            token_type := "bearer" |}
              | _ => Raise invalid_login
              end) as Hlogin.
    { intros pw. unfold login. cbn [users].
      rewrite filter_app. fold (users_by_email db (UserCreate_email user)).
      rewrite Hmail.
      rewrite filter_cons, decide_True by done.
      cbn [app filter first head User_password User_id].
      rewrite verify_password_identified by done.
      cbn [hasher_verify Argon2Hasher].
      by destruct (argon2_verify _ pw). }
    split.
    + by rewrite Hlogin, Hver.
    + intros other Hother. rewrite Hlogin.
      by destruct (argon2_verify _ other).
Qed.

End UsersRouter.

(** ** Posts, continued *)

Section PostsMore.

Lemma posts_by_id_nonempty db id :
  posts_by_id db id ≠ [] ↔ ∃ p, p ∈ posts db ∧ Post_id p = id.
Proof.
  unfold posts_by_id. split.
  - destruct (filter _ (posts db)) as [|p l] eqn:Hf; [done|]. intros _.
    assert (p ∈ filter (λ p, Post_id p = id) (posts db)) as Hp
      by (rewrite Hf; apply list_elem_of_here).
    apply list_elem_of_filter in Hp as [? ?]. eauto.
  - intros (p & Hin & Hid) Hnil.
    exact (filter_nil_not_elem_of _ _ p Hnil Hid Hin).
Qed.

Lemma users_by_id_nonempty db id :
  users_by_id db id ≠ [] ↔ ∃ u, u ∈ users db ∧ User_id u = id.
Proof.
  unfold users_by_id. split.
  - destruct (filter _ (users db)) as [|u l] eqn:Hf; [done|]. intros _.
    assert (u ∈ filter (λ u, User_id u = id) (users db)) as Hu
      by (rewrite Hf; apply list_elem_of_here).
    apply list_elem_of_filter in Hu as [? ?]. eauto.
  - intros (u & Hin & Hid) Hnil.
    exact (filter_nil_not_elem_of _ _ u Hnil Hid Hin).
Qed.

(** The update keeps every id, so a lookup by id commutes with it. *)
Lemma filter_id_update (post : Post) title content published (l : list Post) i :
  filter (λ p, Post_id p = i)
    ((λ p, if decide (Post_id p = Post_id post)
           then set_post_fields title content published p else p) <$> l)
  = (λ p, if decide (Post_id p = Post_id post)
          then set_post_fields title content published p else p)
      <$> filter (λ p, Post_id p = i) l.
Proof.
  induction l as [|q l IH]; [done|].
  rewrite fmap_cons, !filter_cons.
  destruct (decide (Post_id q = Post_id post)) as [Hq|Hq]; cbn [Post_id set_post_fields];
    destruct (decide (Post_id q = i)); rewrite ?fmap_cons, IH;
    try done.
  by rewrite decide_True.
  by rewrite decide_False.
Qed.

(** X11. The owner's delete. When the first row with id [id] belongs to
    the caller, [delete_post] returns nothing and commits a session in
    which no post has that id, every other post is still there, the votes
    on the deleted post are gone with it and all other votes and all
    users are untouched. *)
Theorem delete_post_by_owner (id : Z) (db : Session) (current_user : User)
    (post : Post) :
  first (posts_by_id db id) = Some post →
  Post_owner_id post = User_id current_user →
  ∃ db', delete_post id db current_user = (Return (), db')
         ∧ posts_by_id db' id = []
         ∧ (∀ q, q ∈ posts db' ↔ q ∈ posts db ∧ Post_id q ≠ id)
         ∧ (∀ v, v ∈ votes db' ↔ v ∈ votes db ∧ Vote_post_id v ≠ id)
         ∧ users db' = users db.
Proof.
  intros Hfirst Hown.
  pose proof (posts_by_id_first id db post Hfirst) as [Hin Hid].
  exists (delete_post_row post db). split.
  { unfold delete_post. rewrite Hfirst.
    by rewrite decide_False by (by intros ?). }
  unfold delete_post_row, posts_by_id. cbn [posts votes users]. rewrite Hid.
  split; [|split; [|split]].
  - apply elem_of_nil_inv. intros q Hq.
    apply list_elem_of_filter in Hq as [Hq1 Hq2].
    by apply list_elem_of_filter in Hq2 as [Hq2 _].
  - intros q. rewrite list_elem_of_filter. tauto.
  - intros v. rewrite elem_of_filter. tauto.
  - done.
Qed.

(** X12. The owner's update. When the first row with id [id] belongs to
    the caller, [update_post] returns that row with the three fields of
    the request and its id, owner and creation time kept; a lookup by
    that id now finds the returned row; the lookup of any other id, the
    votes and the users are as before. *)
Theorem update_post_by_owner (id : Z) (body : PostCreate) (db : Session)
    (current_user : User) (post : Post) :
  first (posts_by_id db id) = Some post →
  Post_owner_id post = User_id current_user →
  ∃ updated db',
    update_post id body db current_user = (Return updated, db')
    ∧ Post_title updated = PostCreate_title body
    ∧ Post_content updated = PostCreate_content body
    ∧ Post_published updated = PostCreate_published body
    ∧ Post_id updated = id
    ∧ Post_owner_id updated = Post_owner_id post
    ∧ Post_created_at updated = Post_created_at post
    ∧ first (posts_by_id db' id) = Some updated
    ∧ (∀ i, i ≠ id → posts_by_id db' i = posts_by_id db i)
    ∧ votes db' = votes db
    ∧ users db' = users db.
Proof.
  intros Hfirst Hown.
  pose proof (posts_by_id_first id db post Hfirst) as [Hin Hid].
  eexists _, _. split.
  { unfold update_post. rewrite Hfirst.
    by rewrite decide_False by (by intros ?). }
  cbn [Post_title Post_content Post_published Post_id Post_owner_id
       Post_created_at set_post_fields].
  repeat (split; [done|]).
  unfold update_post_row, posts_by_id. cbn [posts votes users].
  split; [|split; [|done]].
  - rewrite filter_id_update. unfold first, posts_by_id in Hfirst.
    destruct (filter (λ p, Post_id p = id) (posts db)) as [|q l]; [done|].
    simpl in Hfirst. injection Hfirst as ->.
    rewrite fmap_cons. cbn [first head]. by rewrite decide_True.
  - intros i Hi. rewrite filter_id_update.
    rewrite <- (list_fmap_id (filter (λ p, Post_id p = i) (posts db))) at 2.
    apply list_fmap_ext. intros k q Hq.
    apply list_elem_of_lookup_2, list_elem_of_filter in Hq as [Hq _].
    rewrite decide_False; [done|]. congruence.
Qed.

(** X13. Someone else's post. When the first row with id [id] belongs
    to another user, both [delete_post] and [update_post] raise a 403 and
    leave the session exactly as it was. *)
Theorem not_owner_forbidden (id : Z) (body : PostCreate) (db : Session)
    (current_user : User) (post : Post) :
  first (posts_by_id db id) = Some post →
  Post_owner_id post ≠ User_id current_user →
  delete_post id db current_user
    = (Raise (HTTPException HTTP_403_FORBIDDEN
                "Not authorized to delete this post" None), db)
  ∧ update_post id body db current_user
    = (Raise (HTTPException HTTP_403_FORBIDDEN
                "Not authorized to update this post" None), db).
Proof.
  intros Hfirst Hown. unfold delete_post, update_post. rewrite Hfirst.
  by rewrite !decide_True.
Qed.

End PostsMore.

(** ** Votes and the listing *)

Section VotesMore.

(** The number of votes on one post, as the joined query counts them. *)
Lemma count_after_add (vs : gset Vote) (v : Vote) (i : Z) :
  v ∉ vs →
  size (filter (λ w, Vote_post_id w = i) (vs ∪ {[ v ]}))
  = if decide (Vote_post_id v = i)
    then S (size (filter (λ w, Vote_post_id w = i) vs))
    else size (filter (λ w, Vote_post_id w = i) vs).
Proof.
  intros Hfresh. rewrite filter_union_L, filter_singleton_L; [|apply _ ..].
  destruct (decide (Vote_post_id v = i)) as [Hv|Hv].
  - rewrite size_union
      by (apply disjoint_singleton_r; by intros [_ ?]%elem_of_filter).
    rewrite size_singleton. lia.
  - by rewrite (right_id_L ∅ (∪)).
Qed.

Lemma count_after_remove (vs : gset Vote) (v : Vote) (i : Z) :
  v ∈ vs →
  size (filter (λ w, Vote_post_id w = i) vs)
  = if decide (Vote_post_id v = i)
    then S (size (filter (λ w, Vote_post_id w = i) (vs ∖ {[ v ]})))
    else size (filter (λ w, Vote_post_id w = i) (vs ∖ {[ v ]})).
Proof.
  intros Hin.
  rewrite (union_difference_singleton_L v vs Hin) at 1.
  rewrite (comm_L (∪)).
  apply count_after_add.
  by intros [_ Hne]%elem_of_difference; apply Hne, elem_of_singleton.
Qed.

(** X14. A vote shows in the listing. After a successful add by [u] on
    post [p], the joined query gives the same posts in the same order,
    the count of every post with id [p] one higher and every other count
    unchanged. *)
Theorem vote_add_increments_count (db : Session) (u : User) (p : Z) :
  u ∈ users db → posts_by_id db p ≠ [] → vote_row p u ∉ votes db →
  posts_with_votes (vote (add_request p) db u).2
  = (λ row, if decide (Post_id row.1 = p) then (row.1, row.2 + 1) else row)
      <$> posts_with_votes db.
Proof.
  intros Hu Hp Hfresh. rewrite vote_add_fresh by done.
  unfold posts_with_votes, with_votes. cbn [snd posts votes].
  rewrite <- list_fmap_compose. apply list_fmap_ext. intros k q _.
  cbn [compose fst snd].
  rewrite count_after_add by done. cbn [vote_row Vote_post_id].
  destruct (decide (p = Post_id q)) as [->|Hne].
  - rewrite decide_True by done. f_equal. lia.
  - by rewrite decide_False by congruence.
Qed.

(** X15. A removed vote shows in the listing. After a successful remove
    by [u] on post [p], the count of every post with id [p] is one lower
    and every other count is unchanged. *)
Theorem vote_remove_decrements_count (db : Session) (u : User) (p : Z) :
  vote_row p u ∈ votes db →
  posts_with_votes (vote (remove_request p) db u).2
  = (λ row, if decide (Post_id row.1 = p) then (row.1, row.2 - 1) else row)
      <$> posts_with_votes db.
Proof.
  intros Hin. rewrite vote_remove_present by done.
  unfold posts_with_votes, with_votes. cbn [snd posts votes].
  rewrite <- list_fmap_compose. apply list_fmap_ext. intros k q _.
  cbn [compose fst snd].
  rewrite (count_after_remove (votes db) (vote_row p u) (Post_id q)) by done.
  cbn [vote_row Vote_post_id].
  destruct (decide (p = Post_id q)) as [->|Hne].
  - rewrite decide_True by done. f_equal. lia.
  - by rewrite decide_False by congruence.
Qed.

(** X16. What the vote route can answer. A request that returns had
    direction 0 or 1; a request that raises is answered 404, 409, 422 or
    500, and never the 400 of the handler's last branch. *)
Theorem vote_route_answers (p d : Z) (db : Session) (u : User) :
  match (vote_route p d db u).1 with
  | Return _ => d = 0 ∨ d = 1
  | Raise e =>
      response_status e ∈ [HTTP_404_NOT_FOUND; HTTP_409_CONFLICT;
                           HTTP_422_UNPROCESSABLE_ENTITY;
                           HTTP_500_INTERNAL_SERVER_ERROR]
      ∧ response_status e ≠ HTTP_400_BAD_REQUEST
  end.
Proof.
  unfold vote_route, VoteSchema_validate.
  destruct (decide (d = 0 ∨ d = 1)) as [Hd|Hd]; cbn [fst].
  - unfold vote. cbn [dir post_id].
    destruct (find_vote db p (User_id u)) as [existing|];
      destruct (decide (d = 1)) as [->|Hd1];
      try (destruct (decide (d = 0)) as [->|Hd0]; [|lia]);
      cbn [fst]; try done.
    + split; [|done]. cbn. set_unfold. tauto.
    + unfold insert_vote.
      repeat case_decide; cbn [fst]; try done;
        (split; [cbn; set_unfold; tauto | done]).
    + split; [|done]. cbn. set_unfold. tauto.
  - split; [|done]. cbn. set_unfold. tauto.
Qed.

(** X17. A request that fails writes nothing: whenever the vote handler
    or route, the delete, the update or the creation of a post raises,
    the session after the call is the session before it. *)
Theorem failed_requests_write_nothing (db : Session) (u : User) :
  (∀ v e, (vote v db u).1 = Raise e → (vote v db u).2 = db)
  ∧ (∀ p d e, (vote_route p d db u).1 = Raise e → (vote_route p d db u).2 = db)
  ∧ (∀ id e, (delete_post id db u).1 = Raise e → (delete_post id db u).2 = db)
  ∧ (∀ id body e,
       (update_post id body db u).1 = Raise e → (update_post id body db u).2 = db)
  ∧ (∀ body new_id now e,
       (create_post body db u new_id now).1 = Raise e →
       (create_post body db u new_id now).2 = db).
Proof.
  assert (∀ v e, (vote v db u).1 = Raise e → (vote v db u).2 = db) as Hvote.
  { intros v e. unfold vote.
    destruct (decide (dir v = 1)); [|destruct (decide (dir v = 0))];
      destruct (find_vote db (post_id v) (User_id u)); try done.
    by destruct (insert_vote _ db). }
  split; [exact Hvote|]. split; [|split; [|split]].
  - intros p d e. unfold vote_route.
    destruct (VoteSchema_validate p d); [apply Hvote | done].
  - intros id e. unfold delete_post.
    destruct (first (posts_by_id db id)); [|done]. by case_decide.
  - intros id body e. unfold update_post.
    destruct (first (posts_by_id db id)); [|done]. by case_decide.
  - intros body new_id now e. unfold create_post.
    by destruct (insert_post _ db).
Qed.

End VotesMore.

(** ** Creating and listing posts *)

Section CreateAndList.

Lemma create_post_fresh body db author new_id now :
  author ∈ users db → posts_by_id db new_id = [] →
  create_post body db author new_id now
  = (Return {| Post_id := new_id;
               Post_owner_id := User_id author;
               Post_title := PostCreate_title body;
               Post_content := PostCreate_content body;
               Post_published := PostCreate_published body;
               Post_created_at := now |},
     {| users := users db;
        posts := posts db
                 ++ [ {| Post_id := new_id;
                         Post_owner_id := User_id author;
                         Post_title := PostCreate_title body;
                         Post_content := PostCreate_content body;
                         Post_published := PostCreate_published body;
                         Post_created_at := now |} ];
        votes := votes db |}).
Proof.
  intros Hauthor Hid. unfold create_post, insert_post.
  cbn [Post_id Post_owner_id].
  rewrite decide_True by done.
  by rewrite decide_False by (by apply users_by_id_elem).
Qed.

(** X18. Create, then only the owner may change. A post created by an
    authenticated [author] under a free id is owned by the author,
    carries the request's fields, and is what a lookup by its id finds;
    a user with another id is refused with a 403 by both update and
    delete; the author's delete succeeds and leaves no post with that
    id. *)
Theorem create_then_owner_only body db author other new_id now change :
  author ∈ users db →
  posts_by_id db new_id = [] →
  User_id other ≠ User_id author →
  ∃ new_post db',
    create_post body db author new_id now = (Return new_post, db')
    ∧ Post_id new_post = new_id
    ∧ Post_owner_id new_post = User_id author
    ∧ Post_title new_post = PostCreate_title body
    ∧ Post_content new_post = PostCreate_content body
    ∧ Post_published new_post = PostCreate_published body
    ∧ first (posts_by_id db' new_id) = Some new_post
    ∧ update_post new_id change db' other
      = (Raise (HTTPException HTTP_403_FORBIDDEN
                  "Not authorized to update this post" None), db')
    ∧ delete_post new_id db' other
      = (Raise (HTTPException HTTP_403_FORBIDDEN
                  "Not authorized to delete this post" None), db')
    ∧ (delete_post new_id db' author).1 = Return ()
    ∧ posts_by_id (delete_post new_id db' author).2 new_id = [].
Proof.
  intros Hauthor Hfree Hother.
  eexists _, _. split; [by apply create_post_fresh|].
  repeat (split; [done|]).
  match goal with
  | |- first (posts_by_id ?db' new_id) = Some ?np ∧ _ =>
      assert (first (posts_by_id db' new_id) = Some np) as Hfirst
  end.
  { unfold posts_by_id. cbn [posts]. rewrite filter_app.
    fold (posts_by_id db new_id). rewrite Hfree.
    by rewrite filter_cons, decide_True. }
  split; [exact Hfirst|].
  unfold update_post, delete_post. rewrite Hfirst. cbn [Post_owner_id].
  rewrite !decide_True by congruence.
  rewrite decide_False by (by intros ?).
  repeat (split; [done|]). cbn [snd].
  unfold delete_post_row, posts_by_id. cbn [posts Post_id].
  apply elem_of_nil_inv. intros q Hq.
  apply list_elem_of_filter in Hq as [Hq1 Hq2].
  by apply list_elem_of_filter in Hq2 as [Hq2 _].
Qed.

Context `{Sql}.

(** X19. A page of the listing. [get_posts] is refused exactly when
    [limit] or [skip] is negative or does not fit a 64-bit integer;
    otherwise it returns at most [limit] rows, and every row is a post of
    the table whose title matches the search, with the number of votes
    that reference it. *)
Theorem get_posts_page (db : Session) (limit skip : Z) (search : string) :
  match get_posts db limit skip search with
  | DataError =>
      limit < 0 ∨ skip < 0 ∨ bigint_bound ≤ limit ∨ bigint_bound ≤ skip
  | Rows rows =>
      0 ≤ limit < bigint_bound ∧ 0 ≤ skip < bigint_bound
      ∧ Z.of_nat (length rows) ≤ limit
      ∧ ∀ r, r ∈ rows →
          PostJoin_post r ∈ posts db
          ∧ title_contains (Post_title (PostJoin_post r)) search = true
          ∧ PostJoin_votes r
            = Z.of_nat (size (filter (λ v, Vote_post_id v = Post_id (PostJoin_post r))
                                (votes db)))
  end.
Proof.
  unfold get_posts. case_decide as Hbad; [done|].
  split; [lia|]. split; [lia|]. split.
  - rewrite length_fmap, length_take. lia.
  - intros r Hr.
    apply list_elem_of_fmap in Hr as (row & -> & Hrow).
    apply subseteq_take, subseteq_drop in Hrow.
    apply list_elem_of_filter in Hrow as [Hmatch Hrow].
    unfold posts_with_votes in Hrow.
    apply list_elem_of_fmap in Hrow as (p & -> & Hp).
    by cbn [PostJoin_post PostJoin_votes fst snd] in *.
Qed.

(** X20. The whole listing. With no rows skipped and a [limit] that
    fits a 64-bit integer and is not below the number of posts, every
    post whose title matches the search is on the page. *)
Theorem get_posts_complete (db : Session) (limit : Z) (search : string) (p : Post) :
  Z.of_nat (length (posts db)) ≤ limit →
  limit < bigint_bound →
  p ∈ posts db →
  title_contains (Post_title p) search = true →
  ∃ rows r, get_posts db limit 0 search = Rows rows
            ∧ r ∈ rows ∧ PostJoin_post r = p.
Proof.
  intros Hlimit Hfits Hp Hmatch. unfold get_posts.
  rewrite decide_False by (unfold bigint_bound in *; lia).
  eexists _, {| PostJoin_post := p; PostJoin_votes := _ |}.
  split; [done|]. split; [|done].
  change (Z.to_nat 0) with 0%nat. rewrite drop_0.
  rewrite take_ge.
  - apply list_elem_of_fmap.
    eexists (p, _). split; [done|].
    apply list_elem_of_filter. split; [done|].
    unfold posts_with_votes. apply list_elem_of_fmap. by exists p.
  - etrans; [apply length_filter|].
    unfold posts_with_votes. rewrite length_fmap. lia.
Qed.

End CreateAndList.

(** ** Integrity of the session *)

Section Integrity.
Context `{Argon2}.

Lemma NoDup_fmap_filter {A B} (f : A → B) (P : A → Prop)
    `{∀ x, Decision (P x)} (l : list A) :
  NoDup (f <$> l) → NoDup (f <$> filter P l).
Proof.
  induction l as [|x l IH]; [done|].
  rewrite fmap_cons, filter_cons. intros [Hx Hl]%NoDup_cons.
  case_decide; [|by apply IH].
  rewrite fmap_cons. apply NoDup_cons. split; [|by apply IH].
  intros (y & Hy & Hin)%list_elem_of_fmap.
  apply list_elem_of_filter in Hin as [_ Hin].
  apply Hx. rewrite Hy. by apply list_elem_of_fmap_2.
Qed.

Lemma NoDup_fmap_snoc {A B} (f : A → B) (l : list A) (x : A) :
  NoDup (f <$> l) → (∀ y, y ∈ l → f y ≠ f x) → NoDup (f <$> l ++ [x]).
Proof.
  intros Hl Hx. rewrite fmap_app. apply NoDup_app.
  split; [done|]. split; [|apply NoDup_singleton].
  intros b (y & -> & Hy)%list_elem_of_fmap Hb.
  apply list_elem_of_singleton in Hb. by apply (Hx y).
Qed.

Lemma posts_by_id_snoc db p i :
  posts_by_id db i ≠ [] →
  posts_by_id {| users := users db; posts := posts db ++ [p]; votes := votes db |} i ≠ [].
Proof.
  unfold posts_by_id. cbn [posts]. rewrite filter_app.
  intros Hne Happ. by apply app_eq_nil in Happ as [? _].
Qed.

Lemma users_by_id_snoc db u ps i :
  users_by_id db i ≠ [] →
  users_by_id {| users := users db ++ [u]; posts := ps; votes := votes db |} i ≠ [].
Proof.
  unfold users_by_id. cbn [users]. rewrite filter_app.
  intros Hne Happ. by apply app_eq_nil in Happ as [? _].
Qed.

Lemma consistent_insert_vote db v db' :
  consistent db → insert_vote v db = Return db' → consistent db'.
Proof.
  intros (Hk & Hp & Hv). unfold insert_vote.
  repeat case_decide; try done. intros [= <-].
  split; [exact Hk|]. split; [exact Hp|].
  apply set_Forall_union; [exact Hv|].
  by apply set_Forall_singleton.
Qed.

Lemma consistent_delete_vote db v :
  consistent db → consistent (delete_vote v db).
Proof.
  intros (Hk & Hp & Hv).
  split; [exact Hk|]. split; [exact Hp|].
  intros w [Hw _]%elem_of_difference. by apply Hv.
Qed.

Lemma consistent_delete_post_row db post :
  consistent db → consistent (delete_post_row post db).
Proof.
  intros ((Hid & Hmail & Hpid) & Hp & Hv).
  split; [|split].
  - split; [exact Hid|]. split; [exact Hmail|].
    by apply NoDup_fmap_filter.
  - apply Forall_forall. intros q [_ Hq]%list_elem_of_filter.
    by apply (proj1 (Forall_forall _ _) Hp q).
  - intros v [Hne Hin]%elem_of_filter.
    destruct (Hv v Hin) as [Hpost Huser]. split; [|exact Huser].
    apply posts_by_id_nonempty in Hpost as (q & Hq & Hqid).
    apply posts_by_id_nonempty. exists q. split; [|done].
    cbn [posts delete_post_row]. apply list_elem_of_filter. split; [|done].
    congruence.
Qed.

Lemma consistent_update_post_row db post title content published :
  consistent db → consistent (update_post_row post title content published db).
Proof.
  intros ((Hid & Hmail & Hpid) & Hp & Hv).
  split; [|split].
  - split; [exact Hid|]. split; [exact Hmail|].
    cbn [posts update_post_row]. rewrite <- list_fmap_compose.
    erewrite list_fmap_ext; [exact Hpid|].
    intros k q _. cbn [compose]. by case_decide.
  - cbn [posts update_post_row]. apply Forall_fmap.
    eapply Forall_impl; [exact Hp|].
    intros q Hq. cbn [compose]. by case_decide.
  - intros v Hin. destruct (Hv v Hin) as [Hpost Huser]. split; [|exact Huser].
    unfold posts_by_id. cbn [posts update_post_row].
    rewrite filter_id_update. intros Hnil. by apply fmap_nil_inv in Hnil.
Qed.

Lemma consistent_insert_post db p db' :
  consistent db → insert_post p db = Return db' → consistent db'.
Proof.
  intros ((Hid & Hmail & Hpid) & Hp & Hv). unfold insert_post.
  destruct (decide (posts_by_id db (Post_id p) = [])) as [Hfree|]; [|done].
  destruct (decide (users_by_id db (Post_owner_id p) = [])) as [|Howner]; [done|].
  intros [= <-]. split; [|split].
  - split; [exact Hid|]. split; [exact Hmail|].
    cbn [posts]. apply NoDup_fmap_snoc; [done|].
    intros q Hq Heq. exact (filter_nil_not_elem_of _ _ q Hfree Heq Hq).
  - cbn [posts]. apply Forall_app. split; [exact Hp|].
    by apply Forall_singleton.
  - intros v Hin. destruct (Hv v Hin) as [Hpost Huser]. split; [|exact Huser].
    by apply posts_by_id_snoc.
Qed.

Lemma consistent_insert_user db u db' :
  consistent db → insert_user u db = Return db' → consistent db'.
Proof.
  intros ((Hid & Hmail & Hpid) & Hp & Hv). unfold insert_user.
  destruct (decide (users_by_id db (User_id u) = [])) as [Hfree|]; [|done].
  destruct (decide (users_by_email db (User_email u) = [])) as [Hnew|]; [|done].
  intros [= <-]. split; [|split].
  - cbn [users posts]. split; [|split; [|exact Hpid]].
    + apply NoDup_fmap_snoc; [done|].
      intros w Hw Heq. exact (filter_nil_not_elem_of _ _ w Hfree Heq Hw).
    + apply NoDup_fmap_snoc; [done|].
      intros w Hw Heq. exact (filter_nil_not_elem_of _ _ w Hnew Heq Hw).
  - cbn [posts]. eapply Forall_impl; [exact Hp|].
    intros q Hq. by apply users_by_id_snoc.
  - intros v Hin. destruct (Hv v Hin) as [Hpost Huser].
    split; [exact Hpost|]. by apply users_by_id_snoc.
Qed.

(** X21. The handlers keep the session consistent. From a session in
    which ids and emails are unique, every post has its owner and every
    vote has its post and its voter, each of the vote handler, the vote
    route, the delete, the update and the creation of a post, and the
    creation of a user commits a session with the same properties,
    whatever the request and whether it succeeds or not. *)
Theorem handlers_keep_consistent (db : Session) (u : User) :
  consistent db →
  (∀ v, consistent (vote v db u).2)
  ∧ (∀ p d, consistent (vote_route p d db u).2)
  ∧ (∀ id, consistent (delete_post id db u).2)
  ∧ (∀ id body, consistent (update_post id body db u).2)
  ∧ (∀ body new_id now, consistent (create_post body db u new_id now).2)
  ∧ (∀ user new_id now salt, consistent (create_user user db new_id now salt).2).
Proof.
  intros Hdb.
  assert (∀ v, consistent (vote v db u).2) as Hvote.
  { intros v. unfold vote.
    destruct (decide (dir v = 1)); [|destruct (decide (dir v = 0))];
      destruct (find_vote db (post_id v) (User_id u)); cbn [snd]; try done.
    - destruct (insert_vote _ db) as [db1|err] eqn:Hins; cbn [snd]; [|done].
      by eapply consistent_insert_vote.
    - by apply consistent_delete_vote. }
  split; [exact Hvote|]. split; [|split; [|split; [|split]]].
  - intros p d. unfold vote_route.
    destruct (VoteSchema_validate p d); [apply Hvote | done].
  - intros id. unfold delete_post.
    destruct (first (posts_by_id db id)) as [post|]; [|done].
    case_decide; [done|]. by apply consistent_delete_post_row.
  - intros id body. unfold update_post.
    destruct (first (posts_by_id db id)) as [post|]; [|done].
    case_decide; [done|]. by apply consistent_update_post_row.
  - intros body new_id now. unfold create_post.
    destruct (insert_post _ db) as [db1|err] eqn:Hins; cbn [snd]; [|done].
    by eapply consistent_insert_post.
  - intros user new_id now salt. unfold create_user.
    destruct (hash_password _ salt); [|done].
    destruct (insert_user _ db) as [db1|err] eqn:Hins; cbn [snd]; [|done].
    by eapply consistent_insert_user.
Qed.

End Integrity.

(** ** Deleting a post and its votes *)

Section DeleteCascade.

(** X22. After the owner's delete, the votes went with the post: for
    any user, a remove on the deleted id is the 404 of a vote that does
    not exist, and an add is refused by the foreign key; neither changes
    the session. *)
Theorem delete_then_vote (id : Z) (db : Session) (owner voter : User)
    (post : Post) :
  first (posts_by_id db id) = Some post →
  Post_owner_id post = User_id owner →
  ∃ db', delete_post id db owner = (Return (), db')
         ∧ vote (remove_request id) db' voter = (Raise vote_not_found, db')
         ∧ vote (add_request id) db' voter = (Raise IntegrityError, db').
Proof.
  intros Hfirst Hown.
  pose proof (posts_by_id_first id db post Hfirst) as [Hin Hid].
  exists (delete_post_row post db).
  assert (vote_row id voter ∉ votes (delete_post_row post db)) as Hgone.
  { cbn [votes delete_post_row]. intros [Hne _]%elem_of_filter.
    by cbn [vote_row Vote_post_id] in Hne. }
  split; [|split].
  - unfold delete_post. rewrite Hfirst.
    by rewrite decide_False by (by intros ?).
  - by apply vote_remove_missing.
  - apply vote_add_missing_post; [|done].
    unfold posts_by_id. cbn [posts delete_post_row].
    apply elem_of_nil_inv. intros q Hq.
    apply list_elem_of_filter in Hq as [Hq1 Hq2].
    apply list_elem_of_filter in Hq2 as [Hq2 _]. congruence.
Qed.

End DeleteCascade.


(** ** The properties at concrete inputs *)

Section Examples.
Import Fixtures.
#[local] Existing Instance settings.
#[local] Existing Instance runtime.
#[local] Existing Instance argon2.

(** C1 at user 7 and instant 1000 under the default time-to-live. *)
Lemma token_roundtrip_witness :
  1 ≤ ACCESS_TOKEN_EXPIRE_MINUTES
  ∧ verify_access_token (issue 7 1000) credentials_exception 1000
    = Return {| username := Some 7 |}.
Proof.
  split; [by vm_compute|].
  apply token_roundtrip. by vm_compute.
Defined.

(** C2 at the token issued for user 7 at instant 1000, whose [exp] is
    second 1800, verified at that very second. *)
Lemma token_expiry_boundary_witness :
  (<["exp" := JInt 1800]> {[ "user_id" := JInt 7 ]} : gmap string json) !! "exp"
    = Some (JInt 1800)
  ∧ 1800 * 1000000 ≤ 1800000000
  ∧ verify_access_token (issue 7 1000) credentials_exception 1800000000
    = Raise credentials_exception.
Proof.
  split; [reflexivity|]. split; [by vm_compute|].
  exact (proj1 (token_expiry_boundary "HS256"
                  (<["exp" := JInt 1800]> {[ "user_id" := JInt 7 ]})
                  (toy_sign "HS256" "s3cr3t"
                     (<["exp" := JInt 1800]> {[ "user_id" := JInt 7 ]}))
                  1800 1800000000 credentials_exception
                  eq_refl ltac:(by vm_compute))).
Defined.



(** C6 at id 5, which no post of the sample table has. *)
Lemma existence_before_ownership_witness :
  posts_by_id db0 5 = []
  ∧ delete_post 5 db0 bob = (Raise (post_not_found 5), db0)
  ∧ update_post 5 {| PostCreate_title := "t"; PostCreate_content := "c";
                     PostCreate_published := true |} db0 bob
    = (Raise (post_not_found 5), db0).
Proof.
  split; [reflexivity|].
  pose proof (existence_before_ownership 5 db0 eq_refl) as (Hdel & Hupd & _).
  split; [apply Hdel | apply Hupd].
Defined.

(** C3 at user 1 and post 1 of the sample table. *)
Lemma vote_state_machine_witness :
  alice ∈ users db0
  ∧ vote (add_request 1) db0 alice
    = (Return (ReplyVote (vote_row 1 alice)),
       with_votes db0 (votes db0 ∪ {[ vote_row 1 alice ]}))
  ∧ vote (remove_request 1) db0 alice = (Raise vote_not_found, db0).
Proof.
  assert (alice ∈ users db0) as Hu by apply list_elem_of_here.
  split; [exact Hu|].
  pose proof (vote_state_machine db0 alice 1 Hu) as (_ & Hadd & Hrem & _).
  split.
  - apply Hadd; [apply not_elem_of_empty | discriminate].
  - apply Hrem. apply not_elem_of_empty.
Defined.

(** C3 as stated fails where the post has no row: the vote row is not
    there, the user is authenticated, and the add creates nothing. *)
Lemma vote_add_missing_post_counterexample :
  alice ∈ users db_no_posts
  ∧ (vote_row 1 alice ∉ votes db_no_posts)
  ∧ vote (add_request 1) db_no_posts alice = (Raise IntegrityError, db_no_posts)
  ∧ (vote (add_request 1) db_no_posts alice).1
    ≠ Return (ReplyVote (vote_row 1 alice)).
Proof.
  split; [apply list_elem_of_here|].
  split; [apply not_elem_of_empty|].
  split; [reflexivity | discriminate].
Qed.

(** C9 at direction 2. *)
Lemma invalid_vote_direction_witness :
  2 ≠ 1 ∧ 2 ≠ 0
  ∧ vote_route 1 2 db0 alice = (Raise RequestValidationError, db0).
Proof.
  split; [discriminate|]. split; [discriminate|].
  apply (invalid_vote_direction 1 2 db0 alice); discriminate.
Defined.

(** C9 as stated fails at direction 2: the answer is the 422 of the
    schema, not a 400. *)
Lemma invalid_vote_direction_counterexample :
  vote_route 1 2 db0 alice = (Raise RequestValidationError, db0)
  ∧ response_status RequestValidationError ≠ HTTP_400_BAD_REQUEST.
Proof. split; [reflexivity | discriminate]. Qed.

(** C8 at a stored hash of another Argon2 variant: it is recognised,
    does not verify, and the answer is [False]. *)
Lemma verify_password_total_on_identified_witness :
  argon2_identify "$argon2i$v=19$salt$secret1" = true
  ∧ verify_password "secret1" "$argon2i$v=19$salt$secret1" = Return false.
Proof.
  split; [reflexivity|].
  exact (proj1 (proj2 (verify_password_total_on_identified
                         "secret1" "$argon2i$v=19$salt$secret1" eq_refl))
           eq_refl).
Defined.

(** C8 as stated fails at a stored hash that is no encoded hash at all:
    no hasher recognises it, the call raises and returns no boolean. *)
Lemma verify_password_malformed_counterexample :
  verify_password "secret1" "not-a-hash" = Raise UnknownHashError
  ∧ returned (verify_password "secret1" "not-a-hash") ≠ Some false.
Proof. split; [reflexivity | discriminate]. Qed.

#[local] Existing Instance sql.

(** X2 at the token of user 7 issued at instant 1000: five seconds
    later it is accepted, thirty minutes later it is refused. *)
Lemma issued_token_lifetime_witness :
  5000000 + 1000000 ≤ 1000 + timedelta_minutes ACCESS_TOKEN_EXPIRE_MINUTES
  ∧ 1000 + timedelta_minutes ACCESS_TOKEN_EXPIRE_MINUTES ≤ 1800001000
  ∧ verify_access_token (issue 7 1000) credentials_exception 5000000
    = Return {| username := Some 7 |}
  ∧ verify_access_token (issue 7 1000) credentials_exception 1800001000
    = Raise credentials_exception.
Proof.
  split; [by vm_compute|]. split; [by vm_compute|].
  apply (issued_token_lifetime 7 1000 5000000 1800001000 credentials_exception);
    by vm_compute.
Defined.

(** X4 at the token of user 1, presented at the instant it was issued. *)
Lemma guard_sound_witness :
  get_current_active_user (issue 1 0) db0 0 = Return alice
  ∧ alice ∈ users db0.
Proof.
  split; [reflexivity|].
  exact (proj1 (guard_sound (issue 1 0) db0 0 alice eq_refl)).
Defined.

(** X5 at an email nobody has. *)
Lemma login_failure_uniform_witness :
  users_by_email db0 "z@x.com" = []
  ∧ login "z@x.com" "secret1" db0 0 = Raise invalid_login.
Proof.
  split; [reflexivity|].
  exact (proj1 (login_failure_uniform "z@x.com" "secret1" db0 0
                  (or_introl eq_refl))).
Defined.

(** X6 at the login of user 1 with the right password. *)
Lemma login_then_guard_witness :
  1 ≤ ACCESS_TOKEN_EXPIRE_MINUTES
  ∧ NoDup (User_id <$> users db0)
  ∧ login "a@x.com" "secret1" db0 0
    = Return {| access_token := issue 1 0; token_type := "bearer" |}
  ∧ ∃ user, get_current_active_user (issue 1 0) db0 0 = Return user
            ∧ User_email user = "a@x.com"
            ∧ "bearer" = "bearer".
Proof.
  assert (NoDup (User_id <$> users db0)) as Hnd
    by (by_computing).
  assert (1 ≤ ACCESS_TOKEN_EXPIRE_MINUTES) as Httl by (by vm_compute).
  split; [exact Httl|]. split; [exact Hnd|]. split; [reflexivity|].
  exact (login_then_guard "a@x.com" "secret1" db0 0
           {| access_token := issue 1 0; token_type := "bearer" |}
           Httl Hnd eq_refl).
Defined.

(** X7 at a user whose stored password is plain text. *)
Lemma login_unknown_hash_witness :
  first (users_by_email db_legacy "c@x.com") = Some carol
  ∧ argon2_identify (User_password carol) = false
  ∧ login "c@x.com" "plaintext" db_legacy 0 = Raise UnknownHashError.
Proof.
  split; [reflexivity|]. split; [reflexivity|].
  exact (proj1 (login_unknown_hash "c@x.com" "plaintext" db_legacy 0 carol
                  eq_refl eq_refl)).
Defined.

(** X9 at a registration with the email of user 1. *)
Lemma create_user_refused_witness :
  users_by_email db0 "a@x.com" ≠ []
  ∧ create_user {| UserCreate_email := "a@x.com"; UserCreate_password := "pw" |}
      db0 3 5 "salt"
    = (Raise IntegrityError, db0).
Proof.
  assert (users_by_email db0 "a@x.com" ≠ []) as Hne by discriminate.
  split; [exact Hne|].
  exact (proj1 (create_user_refused
                  {| UserCreate_email := "a@x.com"; UserCreate_password := "pw" |}
                  db0 3 5 "salt" (or_intror Hne))).
Defined.

(** X10 at the registration of a third user. *)
Lemma register_then_login_witness :
  users_by_id db0 3 = []
  ∧ users_by_email db0 "c@x.com" = []
  ∧ argon2_identify (argon2_hash "pw" "salt") = true
  ∧ argon2_verify (argon2_hash "pw" "salt") "pw" = Argon2Verified
  ∧ ∃ new_user db',
      create_user {| UserCreate_email := "c@x.com"; UserCreate_password := "pw" |}
        db0 3 5 "salt" = (Return new_user, db')
      ∧ login "c@x.com" "pw" db' 9
        = Return {| access_token := issue 3 9; token_type := "bearer" |}.
Proof.
  assert (argon2_identify (argon2_hash "pw" "salt") = true) as Htag
    by reflexivity.
  assert (argon2_verify (argon2_hash "pw" "salt") "pw" = Argon2Verified) as Hver
    by reflexivity.
  repeat (split; [reflexivity|]).
  destruct (register_then_login
              {| UserCreate_email := "c@x.com"; UserCreate_password := "pw" |}
              db0 3 5 "salt" 9 eq_refl eq_refl Htag Hver)
    as (new_user & db' & Hcreate & _ & _ & Hlogin & _).
  by exists new_user, db'.
Defined.

(** X11 at user 1 deleting post 1. *)
Lemma delete_post_by_owner_witness :
  first (posts_by_id db0 1) = Some post1
  ∧ Post_owner_id post1 = User_id alice
  ∧ ∃ db', delete_post 1 db0 alice = (Return (), db') ∧ posts_by_id db' 1 = [].
Proof.
  split; [reflexivity|]. split; [reflexivity|].
  destruct (delete_post_by_owner 1 db0 alice post1 eq_refl eq_refl)
    as (db' & Hdel & Hgone & _).
  by exists db'.
Defined.

(** X12 at user 1 retitling post 1. *)
Lemma update_post_by_owner_witness :
  first (posts_by_id db0 1) = Some post1
  ∧ Post_owner_id post1 = User_id alice
  ∧ ∃ updated db',
      update_post 1 {| PostCreate_title := "t"; PostCreate_content := "c";
                       PostCreate_published := false |} db0 alice
        = (Return updated, db')
      ∧ Post_title updated = "t"
      ∧ first (posts_by_id db' 1) = Some updated.
Proof.
  split; [reflexivity|]. split; [reflexivity|].
  destruct (update_post_by_owner 1
              {| PostCreate_title := "t"; PostCreate_content := "c";
                 PostCreate_published := false |} db0 alice post1
              eq_refl eq_refl)
    as (updated & db' & Hupd & Htitle & _ & _ & _ & _ & _ & Hfirst & _).
  by exists updated, db'.
Defined.

(** X13 at user 2 on post 1. *)
Lemma not_owner_forbidden_witness :
  first (posts_by_id db0 1) = Some post1
  ∧ Post_owner_id post1 ≠ User_id bob
  ∧ delete_post 1 db0 bob
    = (Raise (HTTPException HTTP_403_FORBIDDEN
                "Not authorized to delete this post" None), db0).
Proof.
  assert (Post_owner_id post1 ≠ User_id bob) as Hne by discriminate.
  split; [reflexivity|]. split; [exact Hne|].
  exact (proj1 (not_owner_forbidden 1
                  {| PostCreate_title := "t"; PostCreate_content := "c";
                     PostCreate_published := false |} db0 bob post1
                  eq_refl Hne)).
Defined.

(** X14 at the first vote of user 1 on post 1. *)
Lemma vote_add_increments_count_witness :
  alice ∈ users db0
  ∧ posts_by_id db0 1 ≠ []
  ∧ (vote_row 1 alice ∉ votes db0)
  ∧ posts_with_votes (vote (add_request 1) db0 alice).2 = [(post1, 1); (post2, 0)].
Proof.
  assert (alice ∈ users db0) as Hu by apply list_elem_of_here.
  assert (posts_by_id db0 1 ≠ []) as Hp by discriminate.
  assert (vote_row 1 alice ∉ votes db0) as Hv by apply not_elem_of_empty.
  split; [exact Hu|]. split; [exact Hp|]. split; [exact Hv|].
  rewrite (vote_add_increments_count db0 alice 1 Hu Hp Hv). reflexivity.
Defined.

(** X15 at user 2 taking back the vote on post 1. *)
Lemma vote_remove_decrements_count_witness :
  vote_row 1 bob ∈ votes db_voted
  ∧ posts_with_votes (vote (remove_request 1) db_voted bob).2
    = [(post1, 0); (post2, 2)].
Proof.
  assert (vote_row 1 bob ∈ votes db_voted) as Hv
    by (by_computing).
  split; [exact Hv|].
  rewrite (vote_remove_decrements_count db_voted bob 1 Hv). reflexivity.
Defined.

(** X18 at a third post created by user 1. *)
Lemma create_then_owner_only_witness :
  alice ∈ users db0
  ∧ posts_by_id db0 3 = []
  ∧ User_id bob ≠ User_id alice
  ∧ ∃ new_post db',
      create_post {| PostCreate_title := "t"; PostCreate_content := "c";
                     PostCreate_published := true |} db0 alice 3 9
        = (Return new_post, db')
      ∧ (delete_post 3 db' bob).1
        = Raise (HTTPException HTTP_403_FORBIDDEN
                   "Not authorized to delete this post" None)
      ∧ (delete_post 3 db' alice).1 = Return ().
Proof.
  assert (alice ∈ users db0) as Hu by apply list_elem_of_here.
  assert (User_id bob ≠ User_id alice) as Hne by discriminate.
  split; [exact Hu|]. split; [reflexivity|]. split; [exact Hne|].
  destruct (create_then_owner_only
              {| PostCreate_title := "t"; PostCreate_content := "c";
                 PostCreate_published := true |} db0 alice bob 3 9
              {| PostCreate_title := "x"; PostCreate_content := "y";
                 PostCreate_published := true |} Hu eq_refl Hne)
    as (new_post & db' & Hcreate & _ & _ & _ & _ & _ & _ & _ & Hdel & Hown & _).
  exists new_post, db'. by rewrite Hdel.
Defined.

(** X20 at a search for ["fir"] with the default page size. *)
Lemma get_posts_complete_witness :
  Z.of_nat (length (posts db0)) ≤ 10
  ∧ 10 < bigint_bound
  ∧ post1 ∈ posts db0
  ∧ title_contains (Post_title post1) "fir" = true
  ∧ ∃ rows r, get_posts db0 10 0 "fir" = Rows rows
              ∧ r ∈ rows ∧ PostJoin_post r = post1.
Proof.
  assert (post1 ∈ posts db0) as Hp by apply list_elem_of_here.
  assert (Z.of_nat (length (posts db0)) ≤ 10) as Hlimit by (by vm_compute).
  assert (10 < bigint_bound) as Hfits by (by vm_compute).
  split; [exact Hlimit|]. split; [exact Hfits|].
  split; [exact Hp|]. split; [reflexivity|].
  exact (get_posts_complete db0 10 "fir" post1 Hlimit Hfits Hp eq_refl).
Defined.

(** X21 at the sample table with three votes. *)
Lemma handlers_keep_consistent_witness :
  consistent db_voted
  ∧ consistent (vote (add_request 1) db_voted alice).2
  ∧ consistent (delete_post 2 db_voted bob).2.
Proof.
  assert (consistent db_voted) as Hdb.
  { split; [split; [|split] | split]; by_computing. }
  split; [exact Hdb|].
  pose proof (handlers_keep_consistent db_voted alice Hdb) as (Hvote & _).
  pose proof (handlers_keep_consistent db_voted bob Hdb) as (_ & _ & Hdel & _).
  split; [apply Hvote | apply Hdel].
Defined.

(** X22 at user 2 deleting post 2, which had two votes. *)
Lemma delete_then_vote_witness :
  first (posts_by_id db_voted 2) = Some post2
  ∧ Post_owner_id post2 = User_id bob
  ∧ ∃ db', delete_post 2 db_voted bob = (Return (), db')
           ∧ vote (remove_request 2) db' alice = (Raise vote_not_found, db').
Proof.
  split; [reflexivity|]. split; [reflexivity|].
  destruct (delete_then_vote 2 db_voted bob alice post2 eq_refl eq_refl)
    as (db' & Hdel & Hrem & _).
  by exists db'.
Defined.

End Examples.
